(** * Falco configuration resolver: [userspace/falco/configuration.cpp]

    A shallow embedding of [falco_configuration::init] and of its helpers
    [read_rules_file_directory], [split], [init_cmdline_options] and
    [set_cmdline_option], with the properties of the resolver proved over
    that embedding.

    Conventions:
    - a C++ function that can throw [std::logic_error] or call [exit]
      returns a [result]; loops that [push_back] into a member take the
      current value of the member and return the new one;
    - the YAML document behind [m_config] and the file system behind
      [stat], [opendir] and [readdir] are interfaces of the resolver: the
      first is a type class, the second a record of two lookup functions. *)

From Stdlib Require Import ZArith String Ascii List Lia Floats Uint63.
From stdpp Require Import base option list strings gmap sorting.

Local Open Scope string_scope.
Local Open Scope list_scope.
Local Open Scope Z_scope.

(** ** Outcomes of a C++ call *)

Inductive result (A : Type) : Type :=
| Ok (a : A)              (* normal return *)
| Throw (what : string)   (* [throw logic_error(what)] *)
| Exit (status : Z).      (* [exit(status)]: the process ends here *)

Arguments Ok {A} a.
Arguments Throw {A} what.
Arguments Exit {A} status.

#[global] Instance result_ret : MRet result := fun A a => Ok a.
#[global] Instance result_bind : MBind result := fun A B f r =>
  match r with
  | Ok a => f a
  | Throw what => Throw what
  | Exit status => Exit status
  end.

Definition returns {A} (r : result A) : Prop := ∃ a, r = Ok a.

(** ** Strings *)

(** The double-quote character (code 34), used inside the diagnostics. *)
Definition dquote : string := String (ascii_of_nat 34) EmptyString.

Definition chars (s : string) : list ascii := list_ascii_of_string s.

(** [std::string::find_first_of(char)]; [None] is [string::npos]. *)
Fixpoint find_first_of (str : string) (delim : ascii) : option nat :=
  match str with
  | EmptyString => None
  | String c rest =>
      if Ascii.eqb c delim then Some 0%nat
      else S <$> find_first_of rest delim
  end.

(** [std::string::substr(pos, len)] and [substr(pos)], for [pos <= size()]
    (the only way [split] calls them). *)
Definition substr (str : string) (pos len : nat) : string :=
  String.substring pos len str.

Definition substr_from (str : string) (pos : nat) : string :=
  String.substring pos (String.length str - pos) str.

(** [static bool split(const string &str, char delim, pair<string, string> &parts)]:
    [None] is [return false], [Some parts] is [return true] with the pair
    the call filled in. *)
Definition split (str : string) (delim : ascii) : option (string * string) :=
  match find_first_of str delim with
  | None => None
  | Some pos => Some (substr str 0 pos, substr_from str (pos + 1))
  end.

(** ** The configuration document *)

(** Modelled from the spec: the declaration of
    [falco_configuration::plugin_config] is in [configuration.h]; the spec
    gives it as [{name, library_path, init_config, open_params}], and the
    resolver only reads [m_name]. *)
Record plugin_config : Type := {
  m_name : string;
  m_library_path : string;
  m_init_config : string;
  m_open_params : string
}.

(** The operations the resolver calls on [yaml_configuration]. The class is
    declared in [configuration.h]; the resolver sees it only through these
    calls. [get_sequence_plugins] is [get_sequence] at
    [std::list<plugin_config>], the one call that [init] guards with a
    [try]: [inl what] is an exception with that message. *)
Class YamlConfiguration (doc : Type) : Type := {
  get_scalar_bool : doc → string → bool → bool;
  get_scalar_string : doc → string → string → string;
  get_scalar_uint32 : doc → string → Z → Z;
  get_sequence : doc → string → list string;
  get_sequence_plugins : doc → string → string + list plugin_config;
  is_defined : doc → string → bool;
  set_scalar : doc → string → string → doc
}.

(** ** Command-line overrides *)

(** The entry has an [=] somewhere. *)
Definition has_equals (opt : string) : Prop := "="%char ∈ chars opt.

(** The entry is cut into [kv] at its first [=]. *)
Definition cut_at_first_equals (opt : string) (kv : string * string) : Prop :=
  opt = kv.1 +:+ String "=" kv.2 ∧ "="%char ∉ chars kv.1.

Section cmdline.
Context {doc : Type} `{YamlConfiguration doc}.

Definition cmdline_option_error (opt : string) : string :=
  "Error parsing config option " +:+ dquote +:+ opt +:+ dquote +:+
  ". Must be of the form key=val or key.subkey=val".

(** [falco_configuration::set_cmdline_option] *)
Definition set_cmdline_option (opt : string) (m_config : doc) : result doc :=
  match split opt "=" with
  | None => Throw (cmdline_option_error opt)
  | Some keyval => Ok (set_scalar m_config keyval.1 keyval.2)
  end.

(** [falco_configuration::init_cmdline_options] *)
Fixpoint init_cmdline_options (cmdline_options : list string) (m_config : doc)
  : result doc :=
  match cmdline_options with
  | [] => Ok m_config
  | option :: rest =>
      m_config' ← set_cmdline_option option m_config;
      init_cmdline_options rest m_config'
  end.

(** The writes a list of (path, value) pairs asks for, first pair first. *)
Definition write_all (kvs : list (string * string)) (m_config : doc) : doc :=
  fold_left (fun d kv => set_scalar d kv.1 kv.2) kvs m_config.
End cmdline.

(** ** Rules files *)

(** The file-type bits of [st_mode], from [<sys/stat.h>] on Linux (octal
    0170000, 0140000, 0120000, 0100000, 0060000, 0040000, 0020000,
    0010000). *)
Definition S_IFMT : Z := 61440.
Definition S_IFSOCK : Z := 49152.
Definition S_IFLNK : Z := 40960.
Definition S_IFREG : Z := 32768.
Definition S_IFBLK : Z := 24576.
Definition S_IFDIR : Z := 16384.
Definition S_IFCHR : Z := 8192.
Definition S_IFIFO : Z := 4096.

(** The macros [S_ISREG] and [S_ISDIR] of [<sys/stat.h>]: what it means
    for a mode to be that of a regular file, of a directory. *)
Definition S_ISREG (st_mode : Z) : Prop := Z.land st_mode S_IFMT = S_IFREG.
Definition S_ISDIR (st_mode : Z) : Prop := Z.land st_mode S_IFMT = S_IFDIR.

#[global] Instance S_ISREG_dec m : Decision (S_ISREG m).
Proof. unfold S_ISREG. apply _. Defined.
#[global] Instance S_ISDIR_dec m : Decision (S_ISDIR m).
Proof. unfold S_ISDIR. apply _. Defined.

(** What the resolver sees of the file system, which does not change while
    it runs:
    - [fs_stat path] is [Some st_mode] when [stat(path, &st)] returns 0 and
      [None] when it fails;
    - [fs_readdir path] is [None] when [opendir(path)] returns [NULL], and
      otherwise the [d_name] of every entry [readdir] hands out, in that
      order, up to its [NULL]. *)
Record filesystem : Type := {
  fs_stat : string → option Z;
  fs_readdir : string → option (list string)
}.

(** The order [std::sort] leaves a [vector<string>] in: [operator<] of
    [std::string] compares bytes as unsigned values, a proper prefix first,
    and [string_le] is that order with equality let in. *)
Definition string_le (a b : string) : Prop := String.leb a b = true.

#[global] Instance string_le_dec a b : Decision (string_le a b).
Proof. unfold string_le. apply _. Defined.

(** [std::sort(first, last)] on a [vector<string>]. *)
Definition std_sort (v : list string) : list string := merge_sort string_le v.

Section rules_files.
Variable fs : filesystem.

(** The path [read_rules_file_directory] builds for an entry. *)
Definition entry_path (path d_name : string) : string :=
  path +:+ "/" +:+ d_name.

(** The path is that of a regular file: [stat] finds it and [S_ISREG]
    holds of its mode. *)
Definition is_regular_file (efile : string) : Prop :=
  match fs_stat fs efile with
  | Some st_mode => S_ISREG st_mode
  | None => False
  end.

#[global] Instance is_regular_file_dec efile : Decision (is_regular_file efile).
Proof. unfold is_regular_file. destruct (fs_stat fs efile); apply _. Defined.

(** The file types [stat] reports, the socket left out: [stat] follows
    symbolic links, so it never reports [S_IFLNK]. *)
Definition no_socket_type (st_mode : Z) : Prop :=
  Z.land st_mode S_IFMT ∈ [S_IFREG; S_IFDIR; S_IFCHR; S_IFBLK; S_IFIFO].

(** The test [st.st_mode & S_IFREG] on the mode [stat] reports. *)
Definition has_S_IFREG_bit (efile : string) : bool :=
  match fs_stat fs efile with
  | Some st_mode => bool_decide (Z.land st_mode S_IFREG ≠ 0)
  | None => false
  end.

(** The [readdir] loop of [read_rules_file_directory]: [ents] are the
    entries still to come. *)
Fixpoint scan_directory (path : string) (ents : list string)
    (dir_filenames : list string) : result (list string) :=
  match ents with
  | [] => Ok dir_filenames
  | d_name :: ents' =>
      let efile := path +:+ "/" +:+ d_name in
      match fs_stat fs efile with
      | None => Exit (-1)
      | Some st_mode =>
          if bool_decide (Z.land st_mode S_IFREG ≠ 0)
          then scan_directory path ents' (dir_filenames ++ [efile])
          else scan_directory path ents' dir_filenames
      end
  end.

(** [falco_configuration::read_rules_file_directory] *)
Definition read_rules_file_directory (path : string)
    (rules_filenames : list string) : result (list string) :=
  match fs_stat fs path with
  | None => Exit (-1)
  | Some st_mode =>
      if bool_decide (Z.land st_mode S_IFDIR ≠ 0) then
        match fs_readdir fs path with
        | None => Exit (-1)
        | Some ents =>
            dir_filenames ← scan_directory path ents [];
            Ok (rules_filenames ++ std_sort dir_filenames)
        end
      else Ok (rules_filenames ++ [path])
  end.

(** [init], the loop over [rules_files]. *)
Fixpoint init_rules_files (rules_files : list string)
    (m_rules_filenames : list string) : result (list string) :=
  match rules_files with
  | [] => Ok m_rules_filenames
  | file :: rest =>
      match fs_stat fs file with
      | Some _ =>
          m_rules_filenames' ← read_rules_file_directory file m_rules_filenames;
          init_rules_files rest m_rules_filenames'
      | None => init_rules_files rest m_rules_filenames
      end
  end.
End rules_files.

(** ** Outputs *)

(** Modelled from the spec: [falco::outputs::config] is declared in
    [outputs.h]; the spec gives it as a name and a map from option names to
    strings. *)
Module outputs.
Record config : Type := {
  name : string;
  options : gmap string string
}.
End outputs.

Section init_outputs.
Context {doc : Type} `{YamlConfiguration doc}.
Variable m_config_file : string.
Variable m_config : doc.

Definition error_reading (what : string) : string :=
  "Error reading config file (" +:+ m_config_file +:+ "): " +:+ what.

Definition file_output (m_outputs : list outputs.config)
  : result (list outputs.config) :=
  if get_scalar_bool m_config "file_output.enabled" false then
    let filename := get_scalar_string m_config "file_output.filename" EmptyString in
    if String.eqb filename EmptyString then
      Throw (error_reading "file output enabled but no filename in configuration block")
    else
      let keep_alive := get_scalar_string m_config "file_output.keep_alive" EmptyString in
      Ok (m_outputs ++
          [{| outputs.name := "file";
              outputs.options :=
                <["keep_alive" := keep_alive]> (<["filename" := filename]> ∅) |}])
  else Ok m_outputs.

Definition stdout_output (m_outputs : list outputs.config) : list outputs.config :=
  if get_scalar_bool m_config "stdout_output.enabled" false
  then m_outputs ++ [{| outputs.name := "stdout"; outputs.options := ∅ |}]
  else m_outputs.

Definition syslog_output (m_outputs : list outputs.config) : list outputs.config :=
  if get_scalar_bool m_config "syslog_output.enabled" false
  then m_outputs ++ [{| outputs.name := "syslog"; outputs.options := ∅ |}]
  else m_outputs.

Definition program_output (m_outputs : list outputs.config)
  : result (list outputs.config) :=
  if get_scalar_bool m_config "program_output.enabled" false then
    let program := get_scalar_string m_config "program_output.program" EmptyString in
    if String.eqb program EmptyString then
      Throw (error_reading "program output enabled but no program in configuration block")
    else
      let keep_alive := get_scalar_string m_config "program_output.keep_alive" EmptyString in
      Ok (m_outputs ++
          [{| outputs.name := "program";
              outputs.options :=
                <["keep_alive" := keep_alive]> (<["program" := program]> ∅) |}])
  else Ok m_outputs.

Definition http_output (m_outputs : list outputs.config)
  : result (list outputs.config) :=
  if get_scalar_bool m_config "http_output.enabled" false then
    let url := get_scalar_string m_config "http_output.url" EmptyString in
    if String.eqb url EmptyString then
      Throw (error_reading "http output enabled but no url in configuration block")
    else
      let user_agent :=
        get_scalar_string m_config "http_output.user_agent" "falcosecurity/falco" in
      Ok (m_outputs ++
          [{| outputs.name := "http";
              outputs.options :=
                <["user_agent" := user_agent]> (<["url" := url]> ∅) |}])
  else Ok m_outputs.

(** The gRPC output is enabled only if the gRPC server is enabled too. *)
Definition grpc_output (m_grpc_enabled : bool) (m_outputs : list outputs.config)
  : list outputs.config :=
  if get_scalar_bool m_config "grpc_output.enabled" true && m_grpc_enabled
  then m_outputs ++ [{| outputs.name := "grpc"; outputs.options := ∅ |}]
  else m_outputs.

Definition no_outputs_error : string :=
  error_reading "No outputs configured. Please configure at least one output file output enabled but no filename in configuration block".

(** The six sinks in the order [init] evaluates them. *)
Definition select_outputs (m_outputs : list outputs.config)
  : result (list outputs.config) :=
  m_outputs ← file_output m_outputs;
  let m_outputs := stdout_output m_outputs in
  let m_outputs := syslog_output m_outputs in
  m_outputs ← program_output m_outputs;
  m_outputs ← http_output m_outputs;
  let m_grpc_enabled := get_scalar_bool m_config "grpc.enabled" false in
  Ok (grpc_output m_grpc_enabled m_outputs).

(** [init], from [file_output] to the check of [m_outputs.size()]. *)
Definition init_outputs (m_outputs : list outputs.config)
  : result (list outputs.config) :=
  m_outputs ← select_outputs m_outputs;
  if bool_decide (length m_outputs = 0%nat) then Throw no_outputs_error
  else Ok m_outputs.
End init_outputs.

(** ** Actions on dropped system call events *)

Inductive syscall_evt_drop_action : Set := IGNORE | LOG | ALERT | EXIT.

#[global] Instance syscall_evt_drop_action_eq_dec : EqDecision syscall_evt_drop_action.
Proof. solve_decision. Defined.

#[global] Instance syscall_evt_drop_action_countable : Countable syscall_evt_drop_action.
Proof.
  refine (inj_countable'
    (fun a => match a with IGNORE => 0 | LOG => 1 | ALERT => 2 | EXIT => 3 end)%nat
    (fun n => match n with 0 => IGNORE | 1 => LOG | 2 => ALERT | _ => EXIT end)%nat _).
  intros []; reflexivity.
Defined.

Section init_syscall_event_drops.
Variable m_config_file : string.

Definition ignore_conflict_error (act : string) : string :=
  error_reading m_config_file
    ("syscall event drop action " +:+ dquote +:+ act +:+ dquote +:+
     " does not make sense with the " +:+ dquote +:+ "ignore" +:+ dquote +:+
     " action").

Definition unknown_action_error : string :=
  error_reading m_config_file
    ("available actions for syscall event drops are " +:+
     dquote +:+ "ignore" +:+ dquote +:+ ", " +:+
     dquote +:+ "log" +:+ dquote +:+ ", " +:+
     dquote +:+ "alert" +:+ dquote +:+ ", and " +:+
     dquote +:+ "exit" +:+ dquote).

(** One turn of the loop over [syscall_event_drop_acts]. *)
Definition add_drop_action (act : string)
    (m_syscall_evt_drop_actions : gset syscall_evt_drop_action)
  : result (gset syscall_evt_drop_action) :=
  if String.eqb act "ignore" then
    Ok ({[IGNORE]} ∪ m_syscall_evt_drop_actions)
  else if String.eqb act "log" then
    if bool_decide (IGNORE ∈ m_syscall_evt_drop_actions)
    then Throw (ignore_conflict_error act)
    else Ok ({[LOG]} ∪ m_syscall_evt_drop_actions)
  else if String.eqb act "alert" then
    if bool_decide (IGNORE ∈ m_syscall_evt_drop_actions)
    then Throw (ignore_conflict_error act)
    else Ok ({[ALERT]} ∪ m_syscall_evt_drop_actions)
  else if String.eqb act "exit" then
    Ok ({[EXIT]} ∪ m_syscall_evt_drop_actions)
  else Throw unknown_action_error.

Fixpoint add_drop_actions (syscall_event_drop_acts : list string)
    (m_syscall_evt_drop_actions : gset syscall_evt_drop_action)
  : result (gset syscall_evt_drop_action) :=
  match syscall_event_drop_acts with
  | [] => Ok m_syscall_evt_drop_actions
  | act :: rest =>
      m_syscall_evt_drop_actions' ← add_drop_action act m_syscall_evt_drop_actions;
      add_drop_actions rest m_syscall_evt_drop_actions'
  end.

(** [init], from the loop over the actions to the default [{IGNORE}]. *)
Definition init_syscall_event_drop_actions (syscall_event_drop_acts : list string)
    (m_syscall_evt_drop_actions : gset syscall_evt_drop_action)
  : result (gset syscall_evt_drop_action) :=
  m_syscall_evt_drop_actions ←
    add_drop_actions syscall_event_drop_acts m_syscall_evt_drop_actions;
  if bool_decide (m_syscall_evt_drop_actions = ∅)
  then Ok ({[IGNORE]} ∪ m_syscall_evt_drop_actions)
  else Ok m_syscall_evt_drop_actions.
End init_syscall_event_drops.

(** ** Metadata download *)

Section init_metadata_download.
Context {doc : Type} `{YamlConfiguration doc}.
Variable m_config_file : string.

(** These two diagnostics have no space before the parenthesis. *)
Definition error_reading' (what : string) : string :=
  "Error reading config file(" +:+ m_config_file +:+ "): " +:+ what.

Definition max_mb_error : string :=
  error_reading' "metadata download maximum size should be < 1024 Mb".

Definition watch_freq_error : string :=
  error_reading' "metadata download watch frequency seconds must be an unsigned integer > 0".

(** The check [init] makes on [m_metadata_download_max_mb]. *)
Definition check_metadata_download_max_mb (m_metadata_download_max_mb : Z)
  : result unit :=
  if 1024 <? m_metadata_download_max_mb then Throw max_mb_error else Ok ().

(** [init], the three [metadata_download] settings: the result is
    [(m_metadata_download_max_mb, m_metadata_download_chunk_wait_us,
      m_metadata_download_watch_freq_sec)]. *)
Definition init_metadata_download (m_config : doc) : result (Z * Z * Z) :=
  let m_metadata_download_max_mb :=
    get_scalar_uint32 m_config "metadata_download.max_mb" 100 in
  _ ← check_metadata_download_max_mb m_metadata_download_max_mb;
  let m_metadata_download_chunk_wait_us :=
    get_scalar_uint32 m_config "metadata_download.chunk_wait_us" 1000 in
  let m_metadata_download_watch_freq_sec :=
    get_scalar_uint32 m_config "metadata_download.watch_freq_sec" 1 in
  if m_metadata_download_watch_freq_sec =? 0 then Throw watch_freq_error
  else Ok (m_metadata_download_max_mb, m_metadata_download_chunk_wait_us,
           m_metadata_download_watch_freq_sec).
End init_metadata_download.

(** ** Plugins *)

Section init_plugins.
Context {doc : Type} `{YamlConfiguration doc}.
Variable m_config_file : string.

(** The loop over [plugins]. *)
Fixpoint save_plugins (load_plugins_node_defined : bool)
    (load_plugins : gset string) (plugins : list plugin_config)
    (m_plugins : list plugin_config) : list plugin_config :=
  match plugins with
  | [] => m_plugins
  | p :: rest =>
      if negb load_plugins_node_defined || bool_decide (m_name p ∈ load_plugins)
      then save_plugins load_plugins_node_defined load_plugins rest (m_plugins ++ [p])
      else save_plugins load_plugins_node_defined load_plugins rest m_plugins
  end.

Definition plugins_error (what : string) : string :=
  error_reading' m_config_file ("could not load plugins config: " +:+ what).

(** [init], from [load_plugins] to the end. *)
Definition init_plugins (m_config : doc) (m_plugins : list plugin_config)
  : result (list plugin_config) :=
  let load_plugins_node_defined := is_defined m_config "load_plugins" in
  let load_plugins : gset string :=
    list_to_set (get_sequence m_config "load_plugins") in
  match get_sequence_plugins m_config "plugins" with
  | inl what => Throw (plugins_error what)
  | inr plugins =>
      Ok (save_plugins load_plugins_node_defined load_plugins plugins m_plugins)
  end.
End init_plugins.

(** ** A document and a file system to run the resolver on *)

(** Modelled from the spec: the document store is not part of
    [configuration.cpp] ([yaml_configuration], [configuration.h]); the spec
    describes it as a
    tree addressable by dot-separated path with the operations get scalar
    with default, get sequence, set scalar and is path defined. This store
    keeps, under its full dot-path, the text of a scalar, the items of a
    sequence of strings, or the declarations of a sequence of plugins. A
    scalar is read at [bool] from [true] and [false], at [uint32_t] from a
    decimal numeral below 2^32; any other read returns the default. *)
Inductive yaml_node : Type :=
| Scalar (text : string)
| Sequence (items : list string)
| Plugins (decls : list plugin_config)
| Malformed (what : string).

Definition digit_of (c : ascii) : option Z :=
  let n := Z.of_nat (nat_of_ascii c) in
  if (48 <=? n) && (n <=? 57) then Some (n - 48) else None.

Fixpoint decimal_from (acc : Z) (s : string) : option Z :=
  match s with
  | EmptyString => Some acc
  | String c rest => d ← digit_of c; decimal_from (10 * acc + d) rest
  end.

Definition uint32_of_text (s : string) : option Z :=
  match s with
  | EmptyString => None
  | _ => n ← decimal_from 0 s; if n <? 2 ^ 32 then Some n else None
  end.

#[global] Instance store_yaml : YamlConfiguration (gmap string yaml_node) := {|
  get_scalar_bool d key dflt :=
    match d !! key with
    | Some (Scalar text) =>
        if String.eqb text "true" then true
        else if String.eqb text "false" then false else dflt
    | _ => dflt
    end;
  get_scalar_string d key dflt :=
    match d !! key with Some (Scalar text) => text | _ => dflt end;
  get_scalar_uint32 d key dflt :=
    match d !! key with
    | Some (Scalar text) => default dflt (uint32_of_text text)
    | _ => dflt
    end;
  get_sequence d key :=
    match d !! key with Some (Sequence items) => items | _ => [] end;
  get_sequence_plugins d key :=
    match d !! key with
    | Some (Plugins decls) => inr decls
    | Some (Malformed what) => inl what
    | _ => inr []
    end;
  is_defined d key := bool_decide (is_Some (d !! key));
  set_scalar d key value := <[key := Scalar value]> d
|}.

(** A file system given by the table of its paths and the table of its
    directories. *)
Definition filesystem_of (modes : list (string * Z))
    (dirs : list (string * list string)) : filesystem :=
  {| fs_stat path := (list_to_map modes : gmap string Z) !! path;
     fs_readdir path := (list_to_map dirs : gmap string (list string)) !! path |}.

(** A file system with a rules directory that holds two rules files, a
    subdirectory and a Unix socket, next to a rules file, a named pipe and
    a block device. The modes are octal 040755, 0100644, 0140755, 010644
    and 060660. *)
Definition example_fs : filesystem :=
  filesystem_of
    [("/etc/falco/falco_rules.yaml", 33188);
     ("/etc/falco/rules.d", 16877);
     ("/etc/falco/rules.d/.", 16877);
     ("/etc/falco/rules.d/..", 16877);
     ("/etc/falco/rules.d/b.yaml", 33188);
     ("/etc/falco/rules.d/falco.sock", 49645);
     ("/etc/falco/rules.d/sub", 16877);
     ("/etc/falco/rules.d/a.yaml", 33188);
     ("/etc/falco/rules.pipe", 4516);
     ("/dev/sda", 25008)]
    [("/etc/falco/rules.d", ["."; ".."; "b.yaml"; "falco.sock"; "sub"; "a.yaml"])].

(** A document that turns on the standard output sink and the gRPC
    server, and one that turns on the gRPC sink but not the server. *)
Definition example_doc : gmap string yaml_node :=
  <["grpc.enabled" := Scalar "true"]>
    (<["stdout_output.enabled" := Scalar "true"]> ∅).

Definition grpc_sink_only_doc : gmap string yaml_node :=
  <["grpc.enabled" := Scalar "false"]>
    (<["grpc_output.enabled" := Scalar "true"]> ∅).

(** The sink [init] appends for gRPC. *)
Definition grpc_sink : outputs.config :=
  {| outputs.name := "grpc"; outputs.options := ∅ |}.

(** Every sink of the document is turned off: the five [enabled] flags
    read false, and so does the conjunction that stands for gRPC. *)
Definition all_outputs_disabled {doc : Type} `{YamlConfiguration doc}
    (m_config : doc) : Prop :=
  get_scalar_bool m_config "file_output.enabled" false = false ∧
  get_scalar_bool m_config "stdout_output.enabled" false = false ∧
  get_scalar_bool m_config "syslog_output.enabled" false = false ∧
  get_scalar_bool m_config "program_output.enabled" false = false ∧
  get_scalar_bool m_config "http_output.enabled" false = false ∧
  get_scalar_bool m_config "grpc_output.enabled" true
    && get_scalar_bool m_config "grpc.enabled" false = false.

(** Two plugin declarations, a document that declares them, and the same
    document with an allow-list that names the first. *)
Definition plugin_a : plugin_config :=
  {| m_name := "a"; m_library_path := "liba.so";
     m_init_config := EmptyString; m_open_params := EmptyString |}.

Definition plugin_b : plugin_config :=
  {| m_name := "b"; m_library_path := "libb.so";
     m_init_config := EmptyString; m_open_params := EmptyString |}.

Definition plugins_doc : gmap string yaml_node :=
  <["plugins" := Plugins [plugin_a; plugin_b]]> ∅.

Definition load_plugins_doc : gmap string yaml_node :=
  <["load_plugins" := Sequence ["a"]]> plugins_doc.

(** Documents that set [metadata_download.max_mb]. *)
Definition max_mb_doc (text : string) : gmap string yaml_node :=
  <["metadata_download.max_mb" := Scalar text]> ∅.

(** A file system whose rules directory holds an entry that [stat] cannot
    examine (a symbolic link to a file that is gone), next to a directory
    that [opendir] cannot open. *)
Definition broken_fs : filesystem :=
  filesystem_of
    [("/etc/falco/falco_rules.yaml", 33188);
     ("/etc/falco/rules.d", 16877);
     ("/etc/falco/rules.d/.", 16877);
     ("/etc/falco/rules.d/..", 16877);
     ("/etc/falco/rules.d/a.yaml", 33188);
     ("/etc/falco/private.d", 16832);
     ("/etc/falco", 16877);
     ("/etc/falco/.", 16877);
     ("/etc/falco/..", 16877)]
    [("/etc/falco/rules.d", ["."; ".."; "a.yaml"; "gone.yaml"]);
     ("/etc/falco", ["."; ".."; "rules.d"; "private.d"; "falco_rules.yaml"])].

(** The entry of a directory is of one of the types the expansion is
    meant to leave out: a directory, a character or block device, a named
    pipe. *)
Definition left_out_type (st_mode : Z) : Prop :=
  Z.land st_mode S_IFMT ∈ [S_IFDIR; S_IFCHR; S_IFBLK; S_IFIFO].

(** The mode is one whose [S_IFDIR] bit is clear among those [stat]
    reports: a regular file, a character device, a named pipe. *)
Definition plain_type (st_mode : Z) : Prop :=
  Z.land st_mode S_IFMT ∈ [S_IFREG; S_IFCHR; S_IFIFO].

(** The names of the six sinks in the order [init] goes through them. *)
Definition sink_order : list string :=
  ["file"; "stdout"; "syslog"; "program"; "http"; "grpc"].

(** A document that turns on the file sink and the HTTP sink with their
    parameters, and one that turns on the file sink and the program sink
    without them. *)
Definition file_http_doc : gmap string yaml_node :=
  <["http_output.url" := Scalar "http://localhost:2801"]>
    (<["http_output.enabled" := Scalar "true"]>
       (<["file_output.filename" := Scalar "x.log"]>
          (<["file_output.enabled" := Scalar "true"]> ∅))).

Definition no_parameters_doc : gmap string yaml_node :=
  <["program_output.enabled" := Scalar "true"]>
    (<["file_output.enabled" := Scalar "true"]> ∅).

(** The action a name of [syscall_event_drops.actions] stands for; the
    names are compared as they are written, so in lower case only. *)
Definition action_of_name (act : string) : option syscall_evt_drop_action :=
  if String.eqb act "ignore" then Some IGNORE
  else if String.eqb act "log" then Some LOG
  else if String.eqb act "alert" then Some ALERT
  else if String.eqb act "exit" then Some EXIT
  else None.

(** The actions the names of a list stand for. *)
Definition named_actions (acts : list string) : gset syscall_evt_drop_action :=
  list_to_set (omap action_of_name acts).

(** Neither [log] nor [alert] is in the list. *)
Definition no_log_no_alert (acts : list string) : Prop :=
  ("log" ∉ acts) ∧ ("alert" ∉ acts).

(** No [log] and no [alert] comes behind an [ignore]. *)
Definition nothing_logged_after_ignore (acts : list string) : Prop :=
  ∀ pre post, acts = pre ++ "ignore" :: post → no_log_no_alert post.

(** A document whose plugin declarations cannot be read, with an
    allow-list, and a document with a watch frequency of zero. *)
Definition malformed_plugins_doc : gmap string yaml_node :=
  <["load_plugins" := Sequence ["a"]]>
    (<["plugins" := Malformed "bad file"]> ∅).

Definition watch_freq_zero_doc : gmap string yaml_node :=
  <["metadata_download.watch_freq_sec" := Scalar "0"]> ∅.

(** ** [init] as a whole *)

(** The one read of the document at [double]. A [double] is a binary64
    number of the kernel. *)
Class YamlConfigurationDouble (doc : Type) : Type := {
  get_scalar_double : doc → string → float → float
}.

(** The three settings [init] hands to [falco_logger]: the level that
    [set_level] made of [log_level], and the two flags. *)
Record falco_logger {level : Type} : Type := {
  logger_level : level;
  log_stderr : bool;
  log_syslog : bool
}.

(** The members of [falco_configuration] that [init] assigns, under the
    names they have in [init]. The class is declared in [configuration.h];
    the unsigned members are numbers, the [double] members binary64
    numbers, and [m_config] is the document the object keeps. *)
Module falco_configuration.
Record t {doc priority : Type} : Type := {
  m_config : doc;
  m_rules_filenames : list string;
  m_json_output : bool;
  m_json_include_output_property : bool;
  m_json_include_tags_property : bool;
  m_outputs : list outputs.config;
  m_grpc_enabled : bool;
  m_grpc_bind_address : string;
  m_grpc_threadiness : Z;
  m_grpc_private_key : string;
  m_grpc_cert_chain : string;
  m_grpc_root_certs : string;
  m_log_level : string;
  m_output_timeout : Z;
  m_notifications_rate : Z;
  m_notifications_max_burst : Z;
  m_min_priority : priority;
  m_buffered_outputs : bool;
  m_time_format_iso_8601 : bool;
  m_webserver_enabled : bool;
  m_webserver_listen_port : Z;
  m_webserver_k8s_audit_endpoint : string;
  m_webserver_k8s_healthz_endpoint : string;
  m_webserver_ssl_enabled : bool;
  m_webserver_ssl_certificate : string;
  m_syscall_evt_drop_actions : gset syscall_evt_drop_action;
  m_syscall_evt_drop_threshold : float;
  m_syscall_evt_drop_rate : float;
  m_syscall_evt_drop_max_burst : float;
  m_syscall_evt_simulate_drops : bool;
  m_syscall_evt_timeout_max_consecutives : Z;
  m_metadata_download_max_mb : Z;
  m_metadata_download_chunk_wait_us : Z;
  m_metadata_download_watch_freq_sec : Z;
  m_plugins : list plugin_config
}.
End falco_configuration.

Section init.
Context {doc : Type} `{YamlConfiguration doc} `{YamlConfigurationDouble doc}.
Context {priority level : Type}.

(** What [init] calls outside [configuration.cpp]: the file system,
    [falco_common::parse_priority] ([None] is [return false]),
    [falco_logger::set_level] and [falco::utils::hardware_concurrency]. *)
Variable fs : filesystem.
Variable parse_priority : string → option priority.
Variable set_level : string → result level.
Variable hardware_concurrency : Z.

Definition unknown_priority_error (priority_name : string) : string :=
  "Unknown priority " +:+ dquote +:+ priority_name +:+ dquote +:+
  "--must be one of emergency, alert, critical, error, warning, notice, informational, debug".

Definition threshold_error (m_config_file : string) : string :=
  error_reading m_config_file
    "syscall event drops threshold must be a double in the range [0, 1]".

Definition max_consecutives_error (m_config_file : string) : string :=
  error_reading' m_config_file
    "the maximum consecutive timeouts without an event must be an unsigned integer > 0".

(** [falco_configuration::init], from the return of [load_from_file] on:
    [loaded] is the document that call read from [conf_filename]. The
    object is fresh, so the lists and the set that [init] appends to start
    empty. The result is the object and the settings of the logger. *)
Definition init (conf_filename : string) (cmdline_options : list string) (loaded : doc)
  : result (@falco_configuration.t doc priority * @falco_logger level) :=
  let m_config_file := conf_filename in
  m_config ← init_cmdline_options cmdline_options loaded;
  let rules_files := get_sequence m_config "rules_file" in
  m_rules_filenames ← init_rules_files fs rules_files [];
  let m_json_output := get_scalar_bool m_config "json_output" false in
  let m_json_include_output_property :=
    get_scalar_bool m_config "json_include_output_property" true in
  let m_json_include_tags_property :=
    get_scalar_bool m_config "json_include_tags_property" true in
  m_outputs ← init_outputs m_config_file m_config [];
  let m_grpc_enabled := get_scalar_bool m_config "grpc.enabled" false in
  let m_grpc_bind_address := get_scalar_string m_config "grpc.bind_address" "0.0.0.0:5060" in
  let m_grpc_threadiness := get_scalar_uint32 m_config "grpc.threadiness" 0 in
  let m_grpc_threadiness :=
    if m_grpc_threadiness =? 0 then hardware_concurrency else m_grpc_threadiness in
  let m_grpc_private_key :=
    get_scalar_string m_config "grpc.private_key" "/etc/falco/certs/server.key" in
  let m_grpc_cert_chain :=
    get_scalar_string m_config "grpc.cert_chain" "/etc/falco/certs/server.crt" in
  let m_grpc_root_certs :=
    get_scalar_string m_config "grpc.root_certs" "/etc/falco/certs/ca.crt" in
  let m_log_level := get_scalar_string m_config "log_level" "info" in
  logger_level ← set_level m_log_level;
  let m_output_timeout := get_scalar_uint32 m_config "output_timeout" 2000 in
  let m_notifications_rate := get_scalar_uint32 m_config "outputs.rate" 1 in
  let m_notifications_max_burst := get_scalar_uint32 m_config "outputs.max_burst" 1000 in
  let priority_name := get_scalar_string m_config "priority" "debug" in
  match parse_priority priority_name with
  | None => Throw (unknown_priority_error priority_name)
  | Some m_min_priority =>
  let m_buffered_outputs := get_scalar_bool m_config "buffered_outputs" false in
  let m_time_format_iso_8601 := get_scalar_bool m_config "time_format_iso_8601" false in
  let log_stderr := get_scalar_bool m_config "log_stderr" false in
  let log_syslog := get_scalar_bool m_config "log_syslog" true in
  let m_webserver_enabled := get_scalar_bool m_config "webserver.enabled" false in
  let m_webserver_listen_port := get_scalar_uint32 m_config "webserver.listen_port" 8765 in
  let m_webserver_k8s_audit_endpoint :=
    get_scalar_string m_config "webserver.k8s_audit_endpoint" "/k8s-audit" in
  let m_webserver_k8s_healthz_endpoint :=
    get_scalar_string m_config "webserver.k8s_healthz_endpoint" "/healthz" in
  let m_webserver_ssl_enabled := get_scalar_bool m_config "webserver.ssl_enabled" false in
  let m_webserver_ssl_certificate :=
    get_scalar_string m_config "webserver.ssl_certificate" "/etc/falco/falco.pem" in
  let syscall_event_drop_acts := get_sequence m_config "syscall_event_drops.actions" in
  m_syscall_evt_drop_actions ←
    init_syscall_event_drop_actions m_config_file syscall_event_drop_acts ∅;
  let m_syscall_evt_drop_threshold :=
    get_scalar_double m_config "syscall_event_drops.threshold" 0x1.999999999999ap-4%float in
  if PrimFloat.ltb m_syscall_evt_drop_threshold 0%float
     || PrimFloat.ltb 1%float m_syscall_evt_drop_threshold
  then Throw (threshold_error m_config_file)
  else
  let m_syscall_evt_drop_rate :=
    get_scalar_double m_config "syscall_event_drops.rate" 0x1.110a137f38c54p-5%float in
  let m_syscall_evt_drop_max_burst :=
    get_scalar_double m_config "syscall_event_drops.max_burst" 1%float in
  let m_syscall_evt_simulate_drops :=
    get_scalar_bool m_config "syscall_event_drops.simulate_drops" false in
  let m_syscall_evt_timeout_max_consecutives :=
    get_scalar_uint32 m_config "syscall_event_timeouts.max_consecutives" 1000 in
  if m_syscall_evt_timeout_max_consecutives =? 0
  then Throw (max_consecutives_error m_config_file)
  else
  metadata_download ← init_metadata_download m_config_file m_config;
  m_plugins ← init_plugins m_config_file m_config [];
  Ok ({| falco_configuration.m_config := m_config;
         falco_configuration.m_rules_filenames := m_rules_filenames;
         falco_configuration.m_json_output := m_json_output;
         falco_configuration.m_json_include_output_property :=
           m_json_include_output_property;
         falco_configuration.m_json_include_tags_property :=
           m_json_include_tags_property;
         falco_configuration.m_outputs := m_outputs;
         falco_configuration.m_grpc_enabled := m_grpc_enabled;
         falco_configuration.m_grpc_bind_address := m_grpc_bind_address;
         falco_configuration.m_grpc_threadiness := m_grpc_threadiness;
         falco_configuration.m_grpc_private_key := m_grpc_private_key;
         falco_configuration.m_grpc_cert_chain := m_grpc_cert_chain;
         falco_configuration.m_grpc_root_certs := m_grpc_root_certs;
         falco_configuration.m_log_level := m_log_level;
         falco_configuration.m_output_timeout := m_output_timeout;
         falco_configuration.m_notifications_rate := m_notifications_rate;
         falco_configuration.m_notifications_max_burst := m_notifications_max_burst;
         falco_configuration.m_min_priority := m_min_priority;
         falco_configuration.m_buffered_outputs := m_buffered_outputs;
         falco_configuration.m_time_format_iso_8601 := m_time_format_iso_8601;
         falco_configuration.m_webserver_enabled := m_webserver_enabled;
         falco_configuration.m_webserver_listen_port := m_webserver_listen_port;
         falco_configuration.m_webserver_k8s_audit_endpoint :=
           m_webserver_k8s_audit_endpoint;
         falco_configuration.m_webserver_k8s_healthz_endpoint :=
           m_webserver_k8s_healthz_endpoint;
         falco_configuration.m_webserver_ssl_enabled := m_webserver_ssl_enabled;
         falco_configuration.m_webserver_ssl_certificate := m_webserver_ssl_certificate;
         falco_configuration.m_syscall_evt_drop_actions := m_syscall_evt_drop_actions;
         falco_configuration.m_syscall_evt_drop_threshold := m_syscall_evt_drop_threshold;
         falco_configuration.m_syscall_evt_drop_rate := m_syscall_evt_drop_rate;
         falco_configuration.m_syscall_evt_drop_max_burst := m_syscall_evt_drop_max_burst;
         falco_configuration.m_syscall_evt_simulate_drops := m_syscall_evt_simulate_drops;
         falco_configuration.m_syscall_evt_timeout_max_consecutives :=
           m_syscall_evt_timeout_max_consecutives;
         falco_configuration.m_metadata_download_max_mb := metadata_download.1.1;
         falco_configuration.m_metadata_download_chunk_wait_us := metadata_download.1.2;
         falco_configuration.m_metadata_download_watch_freq_sec := metadata_download.2;
         falco_configuration.m_plugins := m_plugins |},
      {| logger_level := logger_level;
         log_stderr := log_stderr;
         log_syslog := log_syslog |})
  end.
End init.

(** Reading a [double] off the text of a scalar: an optional minus sign, a
    decimal numeral and an optional fraction, rounded to the nearest
    binary64 number, or [.nan]. *)
Definition float_of_Z (n : Z) : float := PrimFloat.of_uint63 (Uint63.of_Z n).

Definition unsigned_double_of_text (s : string) : option float :=
  match split s "." with
  | None => n ← decimal_from 0 s; Some (float_of_Z n)
  | Some (whole, fraction) =>
      n ← decimal_from 0 (whole +:+ fraction);
      Some (PrimFloat.div (float_of_Z n)
              (float_of_Z (10 ^ Z.of_nat (String.length fraction))))
  end.

Definition double_of_text (s : string) : option float :=
  if String.eqb s ".nan" then Some PrimFloat.nan
  else match s with
       | EmptyString => None
       | String "-" rest => PrimFloat.opp <$> unsigned_double_of_text rest
       | _ => unsigned_double_of_text s
       end.

#[global] Instance store_yaml_double : YamlConfigurationDouble (gmap string yaml_node) := {|
  get_scalar_double d key dflt :=
    match d !! key with
    | Some (Scalar text) => default dflt (double_of_text text)
    | _ => dflt
    end
|}.

(** An environment to run [init] in. Modelled from the spec: the priority
    is one of the eight names that the error of [init] lists, here by its
    place in that list; the logger takes every level as it is given; the
    machine has four hardware threads. *)
Definition example_parse_priority (priority_name : string) : option nat :=
  list_find (String.eqb priority_name)
    ["emergency"; "alert"; "critical"; "error"; "warning"; "notice";
     "informational"; "debug"] ≫= fun found => Some found.1.

Definition example_set_level (log_level : string) : result string := Ok log_level.

(** A document with two entries of rules files, the standard output sink
    and the gRPC server turned on. *)
Definition init_doc : gmap string yaml_node :=
  <["rules_file" := Sequence ["/etc/falco/falco_rules.yaml"; "/etc/falco/rules.d"]]>
    example_doc.

(** [init] in that environment. *)
Definition example_init (cmdline_options : list string) (loaded : gmap string yaml_node)
  : result (@falco_configuration.t (gmap string yaml_node) nat * @falco_logger string) :=
  init example_fs example_parse_priority example_set_level 4
    "/etc/falco/falco.yaml" cmdline_options loaded.

(** Closes goals [c ∉ chars s] and [c ∈ chars s] on a literal [s]. *)
Ltac chars_solver :=
  lazymatch goal with
  | |- _ ∉ chars _ =>
      let Hin := fresh "Hin" in
      intros Hin; unfold chars in Hin; simpl in Hin;
      repeat (apply elem_of_cons in Hin as [Hin|Hin]; [discriminate Hin|]);
      by apply elem_of_nil in Hin
  | |- _ ∈ chars _ =>
      unfold chars; simpl;
      repeat (first [by apply list_elem_of_here | apply list_elem_of_further])
  end.

(** Takes a run of [init] that returned through its next part: the part
    returned, the priority was known, the check passed. *)
Ltac init_step :=
  lazymatch goal with
  | |- mbind _ ?r = _ → _ => destruct r as [?| |] eqn:?; simpl; [|discriminate..]
  | |- match ?o with Some _ => _ | None => _ end = _ → _ =>
      destruct o eqn:?; [|discriminate]
  | |- (if ?b then _ else _) = _ → _ => destruct b eqn:?; simpl; [discriminate|]
  end.

(** * Properties *)

(** ** [split] *)

Lemma substring_all (s : string) : String.substring 0 (String.length s) s = s.
Proof. induction s as [|c s IH]; simpl; [reflexivity | by rewrite IH]. Qed.

Lemma string_app_assoc (a b c : string) : (a +:+ b) +:+ c = a +:+ b +:+ c.
Proof.
  induction a as [|x a IH]; [reflexivity|].
  change (String x ((a +:+ b) +:+ c) = String x (a +:+ b +:+ c)). by rewrite IH.
Qed.

Lemma chars_cons c s : chars (String c s) = c :: chars s.
Proof. reflexivity. Qed.

Lemma chars_app (a b : string) : chars (a +:+ b) = chars a ++ chars b.
Proof. unfold chars. induction a as [|c a IH]; simpl; [reflexivity | by rewrite IH]. Qed.

(** The position [find_first_of] reports is inside the string, so both
    calls of [substr] in [split] are in range. *)
Lemma find_first_of_lt str delim pos :
  find_first_of str delim = Some pos → (pos < String.length str)%nat.
Proof.
  revert pos. induction str as [|c rest IH]; intros pos; simpl; [discriminate|].
  destruct (Ascii.eqb c delim).
  - intros [= <-]. lia.
  - destruct (find_first_of rest delim) as [pos'|]; simpl; [|discriminate].
    intros [= <-]. specialize (IH pos' eq_refl). lia.
Qed.

(** [split] read off the characters of the string, one at a time. *)
Lemma split_cons c rest delim :
  split (String c rest) delim =
    if Ascii.eqb c delim then Some (EmptyString, rest)
    else (fun parts : string * string => (String c parts.1, parts.2)) <$> split rest delim.
Proof.
  unfold split, substr, substr_from. simpl find_first_of.
  destruct (Ascii.eqb c delim).
  - simpl. by rewrite Nat.sub_0_r, substring_all.
  - destruct (find_first_of rest delim) as [pos|]; simpl; reflexivity.
Qed.

Lemma split_nil delim : split EmptyString delim = None.
Proof. reflexivity. Qed.

(** [split] cuts at the first [delim]: the first part has none. *)
Lemma split_Some str delim k v :
  split str delim = Some (k, v) ↔ str = k +:+ String delim v ∧ delim ∉ chars k.
Proof.
  revert k v. induction str as [|c rest IH]; intros k v.
  - rewrite split_nil. split; [discriminate|].
    intros [E _]. destruct k; discriminate.
  - rewrite split_cons. destruct (Ascii.eqb_spec c delim) as [->|Hne].
    + split.
      * intros [= <- <-]. split; [reflexivity | apply not_elem_of_nil].
      * intros [E Hk]. destruct k as [|c' k]; simpl in E.
        -- by injection E as ->.
        -- injection E as -> _. exfalso. apply Hk. rewrite chars_cons. left.
    + destruct (split rest delim) as [[k' v']|] eqn:Hs; simpl.
      * split.
        -- intros [= <- <-]. destruct (proj1 (IH k' v') eq_refl) as [-> Hk'].
           split; [reflexivity|].
           rewrite chars_cons. intros [?|?]%elem_of_cons; [congruence | done].
        -- intros [E Hk]. destruct k as [|c' k]; simpl in E.
           { injection E as E _. congruence. }
           injection E as <- E. rewrite chars_cons in Hk.
           assert (Hk2 : delim ∉ chars k) by (intros ?; apply Hk; by right).
           assert (Some (k', v') = Some (k, v)) as [= -> ->]; [|reflexivity].
           apply IH. by split.
      * split; [discriminate|]. intros [E Hk]. destruct k as [|c' k]; simpl in E.
        { injection E as E _. congruence. }
        injection E as <- E. rewrite chars_cons in Hk.
        assert (Hk2 : delim ∉ chars k) by (intros ?; apply Hk; by right).
        assert (None = Some (k, v)) as [=]. apply IH. by split.
Qed.

(** [split] fails exactly on the strings without a [delim]. *)
Lemma split_None str delim : split str delim = None ↔ delim ∉ chars str.
Proof.
  induction str as [|c rest IH].
  - rewrite split_nil. split; [intros _; apply not_elem_of_nil | done].
  - rewrite split_cons, chars_cons. destruct (Ascii.eqb_spec c delim) as [->|Hne].
    + split; [discriminate|]. intros Hn. exfalso. apply Hn. left.
    + destruct (split rest delim) as [[k v]|]; simpl.
      * split; [discriminate|]. intros Hn. exfalso.
        assert (Hr : delim ∉ chars rest) by (intros ?; apply Hn; by right).
        apply IH in Hr. discriminate.
      * split; [|done]. intros _ [?|Hin]%elem_of_cons; [congruence|].
        revert Hin. by apply IH.
Qed.

Lemma split_is_Some str delim : is_Some (split str delim) ↔ delim ∈ chars str.
Proof.
  rewrite <- not_eq_None_Some, split_None.
  destruct (decide (delim ∈ chars str)); tauto.
Qed.

(** ** Command-line overrides *)

Section cmdline_properties.
Context {doc : Type} `{YamlConfiguration doc}.

Lemma set_cmdline_option_Ok opt k v (d : doc) :
  cut_at_first_equals opt (k, v) → set_cmdline_option opt d = Ok (set_scalar d k v).
Proof.
  intros Hcut. unfold set_cmdline_option.
  by rewrite (proj2 (split_Some opt "=" k v) Hcut).
Qed.

Lemma set_cmdline_option_Throw opt (d : doc) :
  ¬ has_equals opt → set_cmdline_option opt d = Throw (cmdline_option_error opt).
Proof.
  intros Hno. unfold set_cmdline_option.
  by rewrite (proj2 (split_None opt "=") Hno).
Qed.

Lemma init_cmdline_options_app (a b : list string) (d : doc) :
  init_cmdline_options (a ++ b) d =
    d' ← init_cmdline_options a d; init_cmdline_options b d'.
Proof.
  revert d. induction a as [|opt a IH]; intros d; simpl; [reflexivity|].
  destruct (set_cmdline_option opt d); simpl; [apply IH | reflexivity | reflexivity].
Qed.

Lemma init_cmdline_options_Ok (opts : list string) (d : doc) :
  Forall has_equals opts →
  ∃ kvs, Forall2 cut_at_first_equals opts kvs ∧
         init_cmdline_options opts d = Ok (write_all kvs d).
Proof.
  intros Hall. revert d. induction Hall as [|opt opts Hopt _ IH]; intros d.
  - exists []. split; [constructor | reflexivity].
  - apply split_is_Some in Hopt as [[k v] Hs].
    destruct (IH (set_scalar d k v)) as (kvs & Hcut & Hrun).
    exists ((k, v) :: kvs). split.
    + constructor; [by apply split_Some | done].
    + simpl. unfold set_cmdline_option. rewrite Hs. simpl. exact Hrun.
Qed.

Lemma init_cmdline_options_Throw (pre post : list string) opt (d : doc) :
  Forall has_equals pre → ¬ has_equals opt →
  init_cmdline_options (pre ++ opt :: post) d = Throw (cmdline_option_error opt).
Proof.
  intros Hpre Hopt. rewrite init_cmdline_options_app.
  destruct (init_cmdline_options_Ok pre d Hpre) as (kvs & _ & ->). simpl.
  by rewrite set_cmdline_option_Throw.
Qed.

Lemma init_cmdline_options_last (pre : list string) k v (d : doc) :
  Forall has_equals pre → "="%char ∉ chars k →
  ∃ d', init_cmdline_options pre d = Ok d' ∧
        init_cmdline_options (pre ++ [k +:+ String "=" v]) d = Ok (set_scalar d' k v).
Proof.
  intros Hpre Hk. destruct (init_cmdline_options_Ok pre d Hpre) as (kvs & _ & Hrun).
  exists (write_all kvs d). split; [done|].
  rewrite init_cmdline_options_app, Hrun. simpl.
  by rewrite (set_cmdline_option_Ok _ k v).
Qed.

Lemma cmdline_option_error_quotes opt :
  ∃ front back, cmdline_option_error opt = front +:+ opt +:+ back.
Proof.
  exists ("Error parsing config option " +:+ dquote),
         (dquote +:+ ". Must be of the form key=val or key.subkey=val").
  unfold cmdline_option_error. by rewrite string_app_assoc.
Qed.

(** C3: the overrides are applied in the order given. When every entry
    has an [=], each is cut at its first [=] into a path and a value and
    the document receives exactly these writes, first entry first. The
    first entry without an [=] stops the run with the syntax error that
    quotes it. On a document that reads back what was written at a path,
    the last entry decides what its path holds, whatever the earlier
    entries wrote there. *)
Theorem init_cmdline_options_in_order (opts : list string) (d : doc) :
  (Forall has_equals opts →
     ∃ kvs, Forall2 cut_at_first_equals opts kvs ∧
            init_cmdline_options opts d = Ok (write_all kvs d)) ∧
  (∀ pre opt post,
     opts = pre ++ opt :: post → Forall has_equals pre → ¬ has_equals opt →
     init_cmdline_options opts d = Throw (cmdline_option_error opt) ∧
     ∃ front back, cmdline_option_error opt = front +:+ opt +:+ back) ∧
  ((∀ (d0 : doc) k v dflt, get_scalar_string (set_scalar d0 k v) k dflt = v) →
   ∀ pre k v dflt,
     opts = pre ++ [k +:+ String "=" v] → Forall has_equals pre →
     "="%char ∉ chars k →
     ∃ d', init_cmdline_options opts d = Ok d' ∧ get_scalar_string d' k dflt = v).
Proof.
  split; [apply init_cmdline_options_Ok|]. split.
  - intros pre opt post -> Hpre Hopt.
    split; [by apply init_cmdline_options_Throw | apply cmdline_option_error_quotes].
  - intros Hlaw pre k v dflt -> Hpre Hk.
    destruct (init_cmdline_options_last pre k v d Hpre Hk) as (d' & _ & Hrun).
    exists (set_scalar d' k v). split; [exact Hrun | apply Hlaw].
Qed.

(** C9: an override is turned down only when it has no [=] at all. With
    an [=] anywhere it is accepted, also with nothing before the [=] (the
    value is written at the empty path) and with nothing after it (the
    empty string is written at the path). *)
Theorem set_cmdline_option_rejects_only_no_equals (opt : string) (d : doc) :
  ((∃ what, set_cmdline_option opt d = Throw what) ↔ ¬ has_equals opt) ∧
  (returns (set_cmdline_option opt d) ↔ has_equals opt) ∧
  (∀ v, set_cmdline_option (String "=" v) d = Ok (set_scalar d EmptyString v)) ∧
  (∀ k, "="%char ∉ chars k →
        set_cmdline_option (k +:+ String "=" EmptyString) d
        = Ok (set_scalar d k EmptyString)).
Proof.
  split; [|split; [|split]].
  - split.
    + intros [what Hthrow] Hhas. apply split_is_Some in Hhas as [kv Hs].
      unfold set_cmdline_option in Hthrow. by rewrite Hs in Hthrow.
    + intros Hno. eexists. by apply set_cmdline_option_Throw.
  - split.
    + intros [d' Hok]. apply split_is_Some. unfold set_cmdline_option in Hok.
      destruct (split opt "="); [eauto | discriminate].
    + intros [[k v] Hs]%split_is_Some. exists (set_scalar d k v).
      unfold set_cmdline_option. by rewrite Hs.
  - intros v. apply set_cmdline_option_Ok. split; [reflexivity | apply not_elem_of_nil].
  - intros k Hk. apply set_cmdline_option_Ok. by split.
Qed.
End cmdline_properties.

(** The store reads back the scalar written at a path. *)
Lemma store_get_set (d : gmap string yaml_node) k v dflt :
  get_scalar_string (set_scalar d k v) k dflt = v.
Proof. simpl. by rewrite lookup_insert_eq. Qed.

Lemma init_cmdline_options_in_order_witness :
  ∃ d', init_cmdline_options ["log_level=info"; "json_output=true"; "log_level=debug"]
          (∅ : gmap string yaml_node) = Ok d' ∧
        get_scalar_string d' "log_level" "info" = "debug".
Proof.
  destruct (init_cmdline_options_in_order
              ["log_level=info"; "json_output=true"; "log_level=debug"]
              (∅ : gmap string yaml_node)) as (_ & _ & Hlast).
  apply (Hlast store_get_set ["log_level=info"; "json_output=true"] "log_level" "debug" "info").
  - reflexivity.
  - repeat constructor; unfold has_equals; chars_solver.
  - chars_solver.
Defined.

Lemma set_cmdline_option_rejects_only_no_equals_witness :
  returns (set_cmdline_option "key=" (∅ : gmap string yaml_node)) ∧
  set_cmdline_option "key=" (∅ : gmap string yaml_node)
  = Ok (set_scalar (∅ : gmap string yaml_node) "key" EmptyString).
Proof.
  destruct (set_cmdline_option_rejects_only_no_equals "key=" (∅ : gmap string yaml_node))
    as (_ & Hret & _ & Hval).
  split.
  - apply Hret. unfold has_equals. chars_solver.
  - apply (Hval "key"). chars_solver.
Defined.

(** ** [std::sort] on strings *)

#[global] Instance string_le_total : Total string_le.
Proof. intros a b. apply String.leb_total. Qed.

(** A common prefix does not change the order: sorting the paths of the
    entries of one directory sorts them by name. *)
Lemma string_compare_prefix (p a b : string) :
  String.compare (p +:+ a) (p +:+ b) = String.compare a b.
Proof.
  induction p as [|c p IH]; simpl; [reflexivity|].
  assert (Ascii.compare c c = Eq) as ->; [|exact IH].
  unfold Ascii.compare. apply N.compare_refl.
Qed.

Lemma string_le_entry_path (path a b : string) :
  string_le (entry_path path a) (entry_path path b) ↔ string_le a b.
Proof.
  unfold string_le, String.leb, entry_path.
  by rewrite !string_compare_prefix.
Qed.

Lemma std_sort_sorted (v : list string) : Sorted string_le (std_sort v).
Proof. apply Sorted_merge_sort, _. Qed.

Lemma std_sort_permutation (v : list string) : std_sort v ≡ₚ v.
Proof. apply merge_sort_Permutation. Qed.

(** ** Rules files *)

(** On the modes [stat] can report for anything but a socket (it follows
    symbolic links, so never [S_IFLNK]), the bit test on [S_IFREG] and
    [S_ISREG] agree. *)
Lemma S_IFREG_bit_regular (st_mode : Z) :
  no_socket_type st_mode →
  (Z.land st_mode S_IFREG ≠ 0 ↔ S_ISREG st_mode).
Proof.
  unfold no_socket_type. intros Hty. unfold S_ISREG.
  assert (Z.land st_mode S_IFREG = Z.land (Z.land st_mode S_IFMT) S_IFREG) as ->.
  { by rewrite <- Z.land_assoc. }
  repeat (apply elem_of_cons in Hty as [->|Hty]); [..|by apply elem_of_nil in Hty];
    vm_compute; split; congruence.
Qed.

(** Likewise for [S_IFDIR] and [S_ISDIR], on anything but sockets and block
    devices. *)
Lemma S_IFDIR_bit_directory (st_mode : Z) :
  Z.land st_mode S_IFMT ∈ [S_IFREG; S_IFDIR; S_IFCHR; S_IFIFO] →
  (Z.land st_mode S_IFDIR ≠ 0 ↔ S_ISDIR st_mode).
Proof.
  intros Hty. unfold S_ISDIR.
  assert (Z.land st_mode S_IFDIR = Z.land (Z.land st_mode S_IFMT) S_IFDIR) as ->.
  { by rewrite <- Z.land_assoc. }
  repeat (apply elem_of_cons in Hty as [->|Hty]); [..|by apply elem_of_nil in Hty];
    vm_compute; split; congruence.
Qed.

Section rules_files_properties.
Variable fs : filesystem.

Lemma scan_directory_Ok path ents dir_filenames :
  Forall (fun d_name => is_Some (fs_stat fs (entry_path path d_name))) ents →
  scan_directory fs path ents dir_filenames
  = Ok (dir_filenames ++ filter (fun e => has_S_IFREG_bit fs e = true)
                                (entry_path path <$> ents)).
Proof.
  intros Hall. revert dir_filenames.
  induction Hall as [|d_name ents [st_mode Hst] _ IH]; intros dir_filenames.
  - simpl. by rewrite app_nil_r.
  - simpl scan_directory. fold (entry_path path d_name). rewrite Hst.
    assert (Hbit : has_S_IFREG_bit fs (entry_path path d_name)
                   = bool_decide (Z.land st_mode S_IFREG ≠ 0)).
    { unfold has_S_IFREG_bit. by rewrite Hst. }
    rewrite fmap_cons, filter_cons.
    destruct (bool_decide (Z.land st_mode S_IFREG ≠ 0)).
    + rewrite decide_True by done. rewrite IH. by rewrite <- app_assoc.
    + rewrite decide_False by (rewrite Hbit; done). apply IH.
Qed.

Lemma scan_directory_Exit path ents dir_filenames :
  Exists (fun d_name => fs_stat fs (entry_path path d_name) = None) ents →
  scan_directory fs path ents dir_filenames = Exit (-1).
Proof.
  intros Hex. revert dir_filenames.
  induction Hex as [d_name ents Hst|d_name ents _ IH]; intros dir_filenames;
    simpl scan_directory; fold (entry_path path d_name).
  - by rewrite Hst.
  - destruct (fs_stat fs (entry_path path d_name)) as [st_mode|]; [|reflexivity].
    destruct (bool_decide _); apply IH.
Qed.

(** What the directory branch appends: the entries whose mode has the
    [S_IFREG] bit, sorted. *)
Lemma read_rules_file_directory_dir path st_mode ents rules_filenames :
  fs_stat fs path = Some st_mode → Z.land st_mode S_IFDIR ≠ 0 →
  fs_readdir fs path = Some ents →
  Forall (fun d_name => is_Some (fs_stat fs (entry_path path d_name))) ents →
  ∃ sorted,
    read_rules_file_directory fs path rules_filenames = Ok (rules_filenames ++ sorted) ∧
    Sorted string_le sorted ∧
    sorted ≡ₚ filter (fun e => has_S_IFREG_bit fs e = true) (entry_path path <$> ents).
Proof.
  intros Hst Hdir Hents Hall. unfold read_rules_file_directory.
  rewrite Hst, bool_decide_eq_true_2, Hents by done.
  rewrite (scan_directory_Ok _ _ _ Hall). simpl.
  eexists. split; [reflexivity|]. split.
  - apply std_sort_sorted.
  - apply std_sort_permutation.
Qed.

(** What the other branch appends: the path itself. *)
Lemma read_rules_file_directory_file path st_mode rules_filenames :
  fs_stat fs path = Some st_mode → Z.land st_mode S_IFDIR = 0 →
  read_rules_file_directory fs path rules_filenames = Ok (rules_filenames ++ [path]).
Proof.
  intros Hst Hdir. unfold read_rules_file_directory.
  rewrite Hst, bool_decide_eq_false_2; [reflexivity | by intros ?].
Qed.

Lemma init_rules_files_app (a b : list string) m_rules_filenames :
  init_rules_files fs (a ++ b) m_rules_filenames =
    m_rules_filenames' ← init_rules_files fs a m_rules_filenames;
    init_rules_files fs b m_rules_filenames'.
Proof.
  revert m_rules_filenames. induction a as [|file a IH]; intros acc; simpl; [reflexivity|].
  destruct (fs_stat fs file); [|apply IH].
  destruct (read_rules_file_directory fs file acc); simpl; [apply IH | done | done].
Qed.

(** On a directory that can be read, whose entries can all be examined and
    none of which is a socket, the entries appended are the regular files,
    sorted. *)
Lemma read_rules_file_directory_regular_files path st_mode ents rules_filenames :
  fs_stat fs path = Some st_mode → S_ISDIR st_mode →
  fs_readdir fs path = Some ents →
  Forall (fun d_name => ∃ m, fs_stat fs (entry_path path d_name) = Some m ∧
                             no_socket_type m) ents →
  ∃ sorted,
    read_rules_file_directory fs path rules_filenames = Ok (rules_filenames ++ sorted) ∧
    Sorted string_le sorted ∧
    sorted ≡ₚ filter (is_regular_file fs) (entry_path path <$> ents).
Proof.
  intros Hst Hdir Hents Hall.
  assert (Hbit : Z.land st_mode S_IFDIR ≠ 0).
  { unfold S_ISDIR in Hdir.
    assert (Z.land st_mode S_IFDIR = Z.land (Z.land st_mode S_IFMT) S_IFDIR) as ->
      by (by rewrite <- Z.land_assoc).
    rewrite Hdir. vm_compute. discriminate. }
  destruct (read_rules_file_directory_dir path st_mode ents rules_filenames Hst Hbit Hents)
    as (sorted & Hrun & Hsorted & Hperm).
  { eapply Forall_impl; [exact Hall|]. intros d_name (m & -> & _). eauto. }
  exists sorted. split; [exact Hrun|]. split; [exact Hsorted|].
  rewrite Hperm. clear Hperm Hrun Hsorted Hents.
  induction Hall as [|d_name ents' (m & Hm & Hty) _ IH]; [reflexivity|].
  rewrite fmap_cons, !filter_cons.
  assert (Hiff : has_S_IFREG_bit fs (entry_path path d_name) = true
                 ↔ is_regular_file fs (entry_path path d_name)).
  { unfold has_S_IFREG_bit, is_regular_file. rewrite Hm.
    rewrite bool_decide_eq_true. by apply S_IFREG_bit_regular. }
  destruct (decide (is_regular_file fs (entry_path path d_name))) as [Hreg|Hreg].
  - rewrite decide_True by (by apply Hiff). by apply Permutation_skip.
  - rewrite decide_False by (by rewrite Hiff). exact IH.
Qed.

(** The expansion of an entry lands where the entry stands: after what the
    entries in front of it gave, before what the entries behind it give. *)
Lemma init_rules_files_inlines (pre post : list string) file m_rules_filenames front :
  init_rules_files fs pre m_rules_filenames = Ok front →
  is_Some (fs_stat fs file) →
  init_rules_files fs (pre ++ file :: post) m_rules_filenames =
    front' ← read_rules_file_directory fs file front;
    init_rules_files fs post front'.
Proof.
  intros Hpre [st_mode Hst]. rewrite init_rules_files_app, Hpre. simpl.
  by rewrite Hst.
Qed.

(** C8: an entry whose path [stat] does not find adds nothing to the list
    and raises nothing, and the entries around it are resolved as if it
    had not been configured. *)
Theorem init_rules_files_skips_missing (pre post : list string) file m_rules_filenames :
  fs_stat fs file = None →
  init_rules_files fs [file] m_rules_filenames = Ok m_rules_filenames ∧
  init_rules_files fs (pre ++ file :: post) m_rules_filenames
  = init_rules_files fs (pre ++ post) m_rules_filenames.
Proof.
  intros Hmissing. split.
  - simpl. by rewrite Hmissing.
  - rewrite !init_rules_files_app.
    destruct (init_rules_files fs pre m_rules_filenames); simpl; [|done..].
    by rewrite Hmissing.
Qed.
End rules_files_properties.

(** C2, on [example_fs]: the expansion of [/etc/falco/rules.d] is sorted
    and leaves out the subdirectory and the two dot entries, but it keeps
    [falco.sock], whose mode is that of a socket and not of a regular
    file: the mode of a socket has the [S_IFREG] bit. *)
Theorem directory_expansion_keeps_socket :
  init_rules_files example_fs ["/etc/falco/rules.d"] []
  = Ok ["/etc/falco/rules.d/a.yaml"; "/etc/falco/rules.d/b.yaml";
        "/etc/falco/rules.d/falco.sock"] ∧
  fs_stat example_fs "/etc/falco/rules.d/falco.sock" = Some 49645 ∧
  Z.land 49645 S_IFMT = S_IFSOCK ∧
  ¬ S_ISREG 49645.
Proof.
  split; [vm_compute; reflexivity|]. split; [vm_compute; reflexivity|].
  split; [reflexivity|]. unfold S_ISREG. vm_compute. discriminate.
Qed.

(** C10, on [example_fs]: [/dev/sda] exists and is a block device, not a
    directory, yet the resolver takes the directory branch (the mode of a
    block device has the [S_IFDIR] bit), [opendir] fails and the process
    exits. The named pipe is appended unchanged. *)
Theorem block_device_entry_exits :
  fs_stat example_fs "/dev/sda" = Some 25008 ∧
  Z.land 25008 S_IFMT = S_IFBLK ∧
  ¬ S_ISDIR 25008 ∧
  init_rules_files example_fs ["/dev/sda"] [] = Exit (-1) ∧
  init_rules_files example_fs ["/etc/falco/rules.pipe"] []
  = Ok ["/etc/falco/rules.pipe"].
Proof.
  split; [vm_compute; reflexivity|]. split; [reflexivity|].
  split; [unfold S_ISDIR; vm_compute; discriminate|].
  split; vm_compute; reflexivity.
Qed.

Lemma init_rules_files_skips_missing_witness :
  init_rules_files example_fs ["/etc/falco/missing.yaml"] ["/etc/falco/k8s.yaml"]
  = Ok ["/etc/falco/k8s.yaml"] ∧
  init_rules_files example_fs
    (["/etc/falco/falco_rules.yaml"] ++
     "/etc/falco/missing.yaml" :: ["/etc/falco/rules.pipe"]) ["/etc/falco/k8s.yaml"]
  = init_rules_files example_fs
      (["/etc/falco/falco_rules.yaml"] ++ ["/etc/falco/rules.pipe"])
      ["/etc/falco/k8s.yaml"].
Proof.
  apply (init_rules_files_skips_missing example_fs). vm_compute. reflexivity.
Defined.

(** ** Outputs *)

Section init_outputs_properties.
Context {doc : Type} `{YamlConfiguration doc}.
Variable m_config_file : string.
Variable m_config : doc.

Lemma file_output_grows m_outputs after :
  file_output m_config_file m_config m_outputs = Ok after →
  (get_scalar_bool m_config "file_output.enabled" false = false ∧ after = m_outputs) ∨
  (get_scalar_bool m_config "file_output.enabled" false = true ∧
   ∃ sink, outputs.name sink = "file" ∧ after = m_outputs ++ [sink]).
Proof.
  unfold file_output. destruct (get_scalar_bool m_config "file_output.enabled" false).
  - destruct (String.eqb _ _); [discriminate|]. intros [= <-]. right.
    split; [done|]. eexists. split; [|reflexivity]. reflexivity.
  - intros [= <-]. by left.
Qed.

Lemma program_output_grows m_outputs after :
  program_output m_config_file m_config m_outputs = Ok after →
  (get_scalar_bool m_config "program_output.enabled" false = false ∧ after = m_outputs) ∨
  (get_scalar_bool m_config "program_output.enabled" false = true ∧
   ∃ sink, outputs.name sink = "program" ∧ after = m_outputs ++ [sink]).
Proof.
  unfold program_output. destruct (get_scalar_bool m_config "program_output.enabled" false).
  - destruct (String.eqb _ _); [discriminate|]. intros [= <-]. right.
    split; [done|]. eexists. split; [|reflexivity]. reflexivity.
  - intros [= <-]. by left.
Qed.

Lemma http_output_grows m_outputs after :
  http_output m_config_file m_config m_outputs = Ok after →
  (get_scalar_bool m_config "http_output.enabled" false = false ∧ after = m_outputs) ∨
  (get_scalar_bool m_config "http_output.enabled" false = true ∧
   ∃ sink, outputs.name sink = "http" ∧ after = m_outputs ++ [sink]).
Proof.
  unfold http_output. destruct (get_scalar_bool m_config "http_output.enabled" false).
  - destruct (String.eqb _ _); [discriminate|]. intros [= <-]. right.
    split; [done|]. eexists. split; [|reflexivity]. reflexivity.
  - intros [= <-]. by left.
Qed.

Lemma stdout_output_grows m_outputs :
  (get_scalar_bool m_config "stdout_output.enabled" false = false ∧
   stdout_output m_config m_outputs = m_outputs) ∨
  (get_scalar_bool m_config "stdout_output.enabled" false = true ∧
   ∃ sink, outputs.name sink = "stdout" ∧
           stdout_output m_config m_outputs = m_outputs ++ [sink]).
Proof.
  unfold stdout_output. destruct (get_scalar_bool m_config "stdout_output.enabled" false);
    [right | left]; [|done].
  split; [done|]. eexists. split; [|reflexivity]. reflexivity.
Qed.

Lemma syslog_output_grows m_outputs :
  (get_scalar_bool m_config "syslog_output.enabled" false = false ∧
   syslog_output m_config m_outputs = m_outputs) ∨
  (get_scalar_bool m_config "syslog_output.enabled" false = true ∧
   ∃ sink, outputs.name sink = "syslog" ∧
           syslog_output m_config m_outputs = m_outputs ++ [sink]).
Proof.
  unfold syslog_output. destruct (get_scalar_bool m_config "syslog_output.enabled" false);
    [right | left]; [|done].
  split; [done|]. eexists. split; [|reflexivity]. reflexivity.
Qed.

(** The sinks in front of the gRPC block, named, and the flags that
    decided them. *)
Lemma select_outputs_Ok m_outputs after :
  select_outputs m_config_file m_config m_outputs = Ok after →
  ∃ added,
    after = grpc_output m_config (get_scalar_bool m_config "grpc.enabled" false)
              (m_outputs ++ added) ∧
    Forall (fun sink => outputs.name sink ∈ ["file"; "stdout"; "syslog"; "program"; "http"])
           added ∧
    (added = [] ↔
       get_scalar_bool m_config "file_output.enabled" false = false ∧
       get_scalar_bool m_config "stdout_output.enabled" false = false ∧
       get_scalar_bool m_config "syslog_output.enabled" false = false ∧
       get_scalar_bool m_config "program_output.enabled" false = false ∧
       get_scalar_bool m_config "http_output.enabled" false = false).
Proof.
  unfold select_outputs.
  destruct (file_output m_config_file m_config m_outputs) as [o1| |] eqn:H1;
    simpl; [|discriminate..].
  destruct (program_output m_config_file m_config
              (syslog_output m_config (stdout_output m_config o1))) as [o4| |] eqn:H4;
    simpl; [|discriminate..].
  destruct (http_output m_config_file m_config o4) as [o5| |] eqn:H5;
    simpl; [|discriminate..].
  intros [= <-].
  apply file_output_grows in H1. apply program_output_grows in H4.
  apply http_output_grows in H5.
  destruct (stdout_output_grows o1) as [[F2 E2]|[F2 (s2 & N2 & E2)]];
  destruct (syslog_output_grows (stdout_output m_config o1))
    as [[F3 E3]|[F3 (s3 & N3 & E3)]];
  destruct H1 as [[F1 ->]|[F1 (s1 & N1 & ->)]];
  destruct H4 as [[F4 ->]|[F4 (s4 & N4 & ->)]];
  destruct H5 as [[F5 ->]|[F5 (s5 & N5 & ->)]];
  rewrite ?E3, ?E2, <- ?app_assoc; simpl;
  rewrite F1, F2, F3, F4, F5;
  first [ eexists; split; [reflexivity|]
        | exists []; split; [by rewrite app_nil_r|] ];
  (split; [repeat (apply Forall_cons_2;
                   [rewrite ?N1, ?N2, ?N3, ?N4, ?N5; set_solver|]);
           apply Forall_nil_2|]);
  split; try done; intros (? & ? & ? & ? & ?); done.
Qed.

Lemma grpc_output_unfold m_grpc_enabled m_outputs :
  grpc_output m_config m_grpc_enabled m_outputs =
    if get_scalar_bool m_config "grpc_output.enabled" true && m_grpc_enabled
    then m_outputs ++ [grpc_sink] else m_outputs.
Proof. reflexivity. Qed.
End init_outputs_properties.

Section init_outputs_theorems.
Context {doc : Type} `{YamlConfiguration doc}.
Variable m_config_file : string.
Variable m_config : doc.

Lemma select_outputs_disabled :
  all_outputs_disabled m_config →
  select_outputs m_config_file m_config [] = Ok [].
Proof.
  intros (F1 & F2 & F3 & F4 & F5 & F6).
  unfold select_outputs, file_output, stdout_output, syslog_output, program_output,
    http_output, grpc_output.
  rewrite F1. simpl. rewrite F2, F3, F4. simpl. rewrite F5. simpl. by rewrite F6.
Qed.

Lemma select_outputs_empty :
  select_outputs m_config_file m_config [] = Ok [] → all_outputs_disabled m_config.
Proof.
  intros (added & Hafter & _ & Hnone)%select_outputs_Ok.
  rewrite grpc_output_unfold in Hafter. simpl in Hafter.
  destruct (get_scalar_bool m_config "grpc_output.enabled" true
            && get_scalar_bool m_config "grpc.enabled" false) eqn:Hgrpc.
  - symmetry in Hafter. by apply app_nil in Hafter as [_ ?].
  - symmetry in Hafter. apply Hnone in Hafter as (? & ? & ? & ? & ?).
    by repeat split.
Qed.

(** C6: once the six sinks have been gone through, an empty list of
    sinks makes [init] throw the error that says no outputs are
    configured, and a list with a sink in it passes the check unchanged.
    On a fresh configuration object the list is empty exactly when every
    sink is turned off. *)
Theorem init_outputs_requires_a_sink (m_outputs after : list outputs.config) :
  (select_outputs m_config_file m_config m_outputs = Ok after →
     (after = [] →
        init_outputs m_config_file m_config m_outputs
        = Throw (no_outputs_error m_config_file)) ∧
     (after ≠ [] → init_outputs m_config_file m_config m_outputs = Ok after)) ∧
  (all_outputs_disabled m_config ↔
     select_outputs m_config_file m_config [] = Ok []) ∧
  (all_outputs_disabled m_config →
     init_outputs m_config_file m_config [] = Throw (no_outputs_error m_config_file)) ∧
  (∃ rest, no_outputs_error m_config_file
           = error_reading m_config_file "No outputs configured" +:+ rest).
Proof.
  split; [|split; [|split]].
  - intros Hsel. unfold init_outputs. rewrite Hsel. simpl. split.
    + by intros ->.
    + intros Hne. rewrite bool_decide_eq_false_2; [done|].
      by intros ?%length_zero_iff_nil.
  - split; [apply select_outputs_disabled | apply select_outputs_empty].
  - intros Hoff. unfold init_outputs. by rewrite (select_outputs_disabled Hoff).
  - eexists. unfold no_outputs_error, error_reading.
    rewrite !string_app_assoc. do 3 f_equal.
Qed.

End init_outputs_theorems.

Lemma init_outputs_requires_a_sink_witness :
  init_outputs "/etc/falco/falco.yaml" grpc_sink_only_doc []
  = Throw (no_outputs_error "/etc/falco/falco.yaml") ∧
  init_outputs "/etc/falco/falco.yaml" example_doc []
  = Ok [{| outputs.name := "stdout"; outputs.options := ∅ |}; grpc_sink].
Proof.
  split.
  - apply (proj1 (proj2 (proj2
      (init_outputs_requires_a_sink "/etc/falco/falco.yaml" grpc_sink_only_doc [] [])))).
    by vm_compute.
  - apply (proj1 (init_outputs_requires_a_sink "/etc/falco/falco.yaml" example_doc []
                    [{| outputs.name := "stdout"; outputs.options := ∅ |}; grpc_sink])).
    + reflexivity.
    + discriminate.
Defined.


(** ** Actions on dropped system call events *)

Section init_syscall_event_drops_properties.
Variable m_config_file : string.

Lemma add_drop_actions_app (a b : list string) (actions : gset syscall_evt_drop_action) :
  add_drop_actions m_config_file (a ++ b) actions =
    actions' ← add_drop_actions m_config_file a actions;
    add_drop_actions m_config_file b actions'.
Proof.
  revert actions. induction a as [|act a IH]; intros actions; simpl; [reflexivity|].
  destruct (add_drop_action m_config_file act actions); simpl; [apply IH | done | done].
Qed.






End init_syscall_event_drops_properties.


(** ** Metadata download *)

Section init_metadata_download_properties.
Context {doc : Type} `{YamlConfiguration doc}.
Variable m_config_file : string.

(** C4: the check on [metadata_download.max_mb] lets through every value
    up to 1024, 1024 included, and throws for every value above it. A
    value that passes leaves [init] at its next check, the one on the
    watch frequency; a value above 1024 makes it throw the error on the
    maximum size. So 2000 fails and 500 passes. *)
Theorem metadata_download_max_mb_at_most_1024 (m_config : doc) (max_mb : Z) :
  get_scalar_uint32 m_config "metadata_download.max_mb" 100 = max_mb →
  (max_mb ≤ 1024 →
     check_metadata_download_max_mb m_config_file max_mb = Ok () ∧
     init_metadata_download m_config_file m_config =
       let chunk_wait_us :=
         get_scalar_uint32 m_config "metadata_download.chunk_wait_us" 1000 in
       let watch_freq_sec :=
         get_scalar_uint32 m_config "metadata_download.watch_freq_sec" 1 in
       if watch_freq_sec =? 0 then Throw (watch_freq_error m_config_file)
       else Ok (max_mb, chunk_wait_us, watch_freq_sec)) ∧
  (1024 < max_mb →
     check_metadata_download_max_mb m_config_file max_mb
     = Throw (max_mb_error m_config_file) ∧
     init_metadata_download m_config_file m_config
     = Throw (max_mb_error m_config_file)) ∧
  check_metadata_download_max_mb m_config_file 1024 = Ok () ∧
  check_metadata_download_max_mb m_config_file 500 = Ok () ∧
  check_metadata_download_max_mb m_config_file 2000
  = Throw (max_mb_error m_config_file).
Proof.
  intros Hread. split; [|split; [|by repeat split]].
  - intros Hle.
    assert (Hcheck : check_metadata_download_max_mb m_config_file max_mb = Ok ()).
    { unfold check_metadata_download_max_mb.
      destruct (Z.ltb_spec 1024 max_mb); [lia | reflexivity]. }
    split; [exact Hcheck|]. unfold init_metadata_download.
    rewrite Hread, Hcheck. reflexivity.
  - intros Hgt.
    assert (Hcheck : check_metadata_download_max_mb m_config_file max_mb
                     = Throw (max_mb_error m_config_file)).
    { unfold check_metadata_download_max_mb.
      destruct (Z.ltb_spec 1024 max_mb); [reflexivity | lia]. }
    split; [exact Hcheck|]. unfold init_metadata_download.
    rewrite Hread, Hcheck. reflexivity.
Qed.
End init_metadata_download_properties.

Lemma metadata_download_max_mb_at_most_1024_witness :
  init_metadata_download "/etc/falco/falco.yaml" (max_mb_doc "2000")
  = Throw (max_mb_error "/etc/falco/falco.yaml") ∧
  init_metadata_download "/etc/falco/falco.yaml" (max_mb_doc "500") = Ok (500, 1000, 1) ∧
  init_metadata_download "/etc/falco/falco.yaml" (max_mb_doc "1024") = Ok (1024, 1000, 1).
Proof.
  split; [|split].
  - assert (Hread : get_scalar_uint32 (max_mb_doc "2000") "metadata_download.max_mb" 100
                    = 2000) by (vm_compute; reflexivity).
    destruct (metadata_download_max_mb_at_most_1024 "/etc/falco/falco.yaml"
                (max_mb_doc "2000") 2000 Hread) as (_ & Hgt & _).
    apply Hgt. lia.
  - assert (Hread : get_scalar_uint32 (max_mb_doc "500") "metadata_download.max_mb" 100
                    = 500) by (vm_compute; reflexivity).
    destruct (metadata_download_max_mb_at_most_1024 "/etc/falco/falco.yaml"
                (max_mb_doc "500") 500 Hread) as (Hle & _).
    destruct Hle as [_ Hinit]; [lia|]. rewrite Hinit. reflexivity.
  - assert (Hread : get_scalar_uint32 (max_mb_doc "1024") "metadata_download.max_mb" 100
                    = 1024) by (vm_compute; reflexivity).
    destruct (metadata_download_max_mb_at_most_1024 "/etc/falco/falco.yaml"
                (max_mb_doc "1024") 1024 Hread) as (Hle & _).
    destruct Hle as [_ Hinit]; [lia|]. rewrite Hinit. reflexivity.
Defined.

(** ** Plugins *)

Lemma filter_keeps_all {A} (P : A → Prop) `{∀ x, Decision (P x)} (l : list A) :
  (∀ x, P x) → filter P l = l.
Proof.
  intros HP. induction l as [|x l IH]; [reflexivity|].
  rewrite filter_cons_True by apply HP. by rewrite IH.
Qed.

Lemma filter_keeps_none {A} (P : A → Prop) `{∀ x, Decision (P x)} (l : list A) :
  (∀ x, ¬ P x) → filter P l = [].
Proof.
  intros HP. induction l as [|x l IH]; [reflexivity|].
  rewrite filter_cons_False by apply HP. exact IH.
Qed.

Section init_plugins_properties.
Context {doc : Type} `{YamlConfiguration doc}.
Variable m_config_file : string.

Lemma save_plugins_filter (defined : bool) (load_plugins : gset string)
    (plugins m_plugins : list plugin_config) :
  save_plugins defined load_plugins plugins m_plugins =
    m_plugins ++
    filter (fun p => defined = false ∨ m_name p ∈ load_plugins) plugins.
Proof.
  revert m_plugins. induction plugins as [|p plugins IH]; intros m_plugins.
  - simpl. by rewrite app_nil_r.
  - simpl save_plugins. rewrite filter_cons.
    destruct (decide (defined = false ∨ m_name p ∈ load_plugins)) as [Hkeep|Hdrop].
    + assert (negb defined || bool_decide (m_name p ∈ load_plugins) = true) as ->.
      { destruct Hkeep as [->|Hin]; [done|].
        rewrite (bool_decide_eq_true_2 _ Hin). by destruct defined. }
      rewrite IH. by rewrite <- app_assoc.
    + assert (negb defined || bool_decide (m_name p ∈ load_plugins) = false) as ->.
      { destruct defined; [|exfalso; apply Hdrop; by left]. simpl.
        apply bool_decide_eq_false_2. intros ?. apply Hdrop. by right. }
      apply IH.
Qed.

(** C5: when the key [load_plugins] is not in the document, every
    declared plugin is kept, in the order of the declarations. When the
    key is there, the plugins kept are exactly the declared ones whose
    name is in the list under it, in the order of the declarations, and
    the others are left out without an error; under an empty list none
    is kept. *)
Theorem init_plugins_allow_list (m_config : doc)
    (plugins m_plugins : list plugin_config) :
  get_sequence_plugins m_config "plugins" = inr plugins →
  (is_defined m_config "load_plugins" = false →
     init_plugins m_config_file m_config m_plugins = Ok (m_plugins ++ plugins)) ∧
  (is_defined m_config "load_plugins" = true →
     init_plugins m_config_file m_config m_plugins =
       Ok (m_plugins ++
           filter (fun p => m_name p ∈ get_sequence m_config "load_plugins") plugins)) ∧
  (is_defined m_config "load_plugins" = true →
   get_sequence m_config "load_plugins" = [] →
     init_plugins m_config_file m_config m_plugins = Ok m_plugins).
Proof.
  intros Hdecl.
  assert (Hdefined : is_defined m_config "load_plugins" = true →
     init_plugins m_config_file m_config m_plugins =
       Ok (m_plugins ++
           filter (fun p => m_name p ∈ get_sequence m_config "load_plugins") plugins)).
  { intros Hdef. unfold init_plugins. rewrite Hdecl, Hdef, save_plugins_filter.
    do 2 f_equal. apply list_filter_iff. intros p. rewrite elem_of_list_to_set.
    split; [by intros [?|?] | by right]. }
  split; [|split; [exact Hdefined|]].
  - intros Habsent. unfold init_plugins. rewrite Hdecl, Habsent, save_plugins_filter.
    do 2 f_equal. apply filter_keeps_all. intros p. by left.
  - intros Hdef Hempty. rewrite (Hdefined Hdef), Hempty.
    rewrite filter_keeps_none; [by rewrite app_nil_r|].
    intros p. apply not_elem_of_nil.
Qed.
End init_plugins_properties.

Lemma init_plugins_allow_list_witness :
  init_plugins "/etc/falco/falco.yaml" plugins_doc [] = Ok ([] ++ [plugin_a; plugin_b]) ∧
  init_plugins "/etc/falco/falco.yaml" load_plugins_doc [] = Ok [plugin_a].
Proof.
  split.
  - apply (init_plugins_allow_list "/etc/falco/falco.yaml" plugins_doc
             [plugin_a; plugin_b] []); vm_compute; reflexivity.
  - assert (Hdecl : get_sequence_plugins load_plugins_doc "plugins"
                    = inr [plugin_a; plugin_b]) by (vm_compute; reflexivity).
    destruct (init_plugins_allow_list "/etc/falco/falco.yaml" load_plugins_doc
                [plugin_a; plugin_b] [] Hdecl) as (_ & Hdefined & _).
    rewrite Hdefined; vm_compute; reflexivity.
Defined.


(** * Further properties of the resolver *)

(** ** [split] and the command-line overrides *)

(** X1: [split] and joining the two parts with the delimiter undo each
    other. What [split] returns joins back to the string, with no
    delimiter in the first part; a string without the delimiter is turned
    down; and a first part without delimiter, the delimiter and any second
    part, delimiters included, split back into the two parts. *)
Theorem split_join_round_trip (str k v : string) (delim : ascii) :
  match split str delim with
  | Some parts => str = parts.1 +:+ String delim parts.2 ∧ delim ∉ chars parts.1
  | None => delim ∉ chars str
  end ∧
  (delim ∉ chars k → split (k +:+ String delim v) delim = Some (k, v)).
Proof.
  split.
  - destruct (split str delim) as [[k' v']|] eqn:Hs.
    + by apply split_Some in Hs.
    + by apply split_None in Hs.
  - intros Hk. by apply split_Some.
Qed.

Lemma split_join_round_trip_witness :
  split "outputs.rate=a=b" "=" = Some ("outputs.rate", "a=b").
Proof.
  apply (split_join_round_trip EmptyString "outputs.rate" "a=b" "="). chars_solver.
Defined.

(** X2: applying a list of overrides in two runs, the front of the list and
    then its back on the document the front left, is applying the whole
    list; an error in the front is the error of the whole, and the back is
    then not looked at. The empty list leaves the document as it is. *)
Theorem init_cmdline_options_compose {doc : Type} `{YamlConfiguration doc}
    (front back : list string) (d : doc) :
  init_cmdline_options (front ++ back) d =
    match init_cmdline_options front d with
    | Ok d' => init_cmdline_options back d'
    | Throw what => Throw what
    | Exit status => Exit status
    end ∧
  init_cmdline_options [] d = Ok d ∧
  (∀ status, init_cmdline_options front d ≠ Exit status).
Proof.
  split; [|split; [reflexivity|]].
  - rewrite init_cmdline_options_app. by destruct (init_cmdline_options front d).
  - revert d. induction front as [|opt front IH]; intros d status; simpl; [done|].
    unfold set_cmdline_option. destruct (split opt "="); simpl; [apply IH | done].
Qed.

(** ** Rules files *)

Section rules_files_further.
Variable fs : filesystem.

Lemma read_rules_file_directory_prepend path acc :
  read_rules_file_directory fs path acc =
    out ← read_rules_file_directory fs path []; Ok (acc ++ out).
Proof.
  unfold read_rules_file_directory.
  destruct (fs_stat fs path) as [st_mode|]; [|reflexivity].
  destruct (bool_decide _); [|reflexivity].
  destruct (fs_readdir fs path) as [ents|]; [|reflexivity].
  destruct (scan_directory fs path ents []); reflexivity.
Qed.

Lemma init_rules_files_prepend files acc :
  init_rules_files fs files acc =
    out ← init_rules_files fs files []; Ok (acc ++ out).
Proof.
  revert acc. induction files as [|file files IH]; intros acc; simpl.
  - by rewrite app_nil_r.
  - destruct (fs_stat fs file); [|apply IH].
    rewrite (read_rules_file_directory_prepend file acc).
    destruct (read_rules_file_directory fs file []) as [out| |]; simpl; [|done..].
    rewrite (IH (acc ++ out)), (IH out).
    destruct (init_rules_files fs files []) as [out'| |]; simpl; [|done..].
    by rewrite app_assoc.
Qed.

(** X3: every entry gives its paths whatever the list already holds, and
    the list of a run is the list it started from followed by what the
    entries give: resolving [front ++ back] gives what [front] gives
    followed by what [back] gives, and fails as soon as one of them does. *)
Theorem init_rules_files_concat (front back m_rules_filenames : list string) :
  init_rules_files fs (front ++ back) m_rules_filenames =
    match init_rules_files fs front [], init_rules_files fs back [] with
    | Ok out_front, Ok out_back => Ok (m_rules_filenames ++ out_front ++ out_back)
    | Ok _, Throw what => Throw what
    | Ok _, Exit status => Exit status
    | Throw what, _ => Throw what
    | Exit status, _ => Exit status
    end.
Proof.
  rewrite init_rules_files_prepend, init_rules_files_app.
  destruct (init_rules_files fs front []) as [out_front| |]; simpl; [|done..].
  rewrite init_rules_files_prepend.
  destruct (init_rules_files fs back []) as [out_back| |]; simpl; done.
Qed.

Lemma scan_directory_members path ents dir_filenames out :
  scan_directory fs path ents dir_filenames = Ok out →
  ∀ p, p ∈ out ↔
       p ∈ dir_filenames ∨
       ∃ d_name, d_name ∈ ents ∧ p = entry_path path d_name ∧ has_S_IFREG_bit fs p = true.
Proof.
  revert dir_filenames. induction ents as [|d_name ents IH]; intros acc; simpl.
  - intros [= <-] p. split; [by left|]. intros [?|(d & Hd & _)]; [done|].
    by apply elem_of_nil in Hd.
  - fold (entry_path path d_name).
    destruct (fs_stat fs (entry_path path d_name)) as [st_mode|] eqn:Hst; [|discriminate].
    assert (Hbit : has_S_IFREG_bit fs (entry_path path d_name)
                   = bool_decide (Z.land st_mode S_IFREG ≠ 0)).
    { unfold has_S_IFREG_bit. by rewrite Hst. }
    destruct (bool_decide (Z.land st_mode S_IFREG ≠ 0)); intros Hrun p;
      rewrite (IH _ Hrun p); clear IH Hrun.
    + rewrite elem_of_app, list_elem_of_singleton. split.
      * intros [[? | ->] | (d & Hd & ? & ?)]; [by left| |].
        -- right. exists d_name. split; [left|done].
        -- right. exists d. split; [by right|done].
      * intros [?|(d & [->|Hd]%elem_of_cons & -> & ?)].
        -- by left; left.
        -- by left; right.
        -- right. by exists d.
    + split.
      * intros [?|(d & Hd & ? & ?)]; [by left|].
        right. exists d. split; [by right|done].
      * intros [?|(d & [->|Hd]%elem_of_cons & -> & Hp)]; [by left| |].
        -- rewrite Hbit in Hp. discriminate.
        -- right. by exists d.
Qed.

(** The run appends to the list it is given, and what it appends exists:
    [stat] finds every path. *)
Lemma read_rules_file_directory_existing path out :
  read_rules_file_directory fs path [] = Ok out →
  Forall (fun p => is_Some (fs_stat fs p)) out.
Proof.
  unfold read_rules_file_directory.
  destruct (fs_stat fs path) as [st_mode|] eqn:Hst; [|discriminate].
  destruct (bool_decide _).
  - destruct (fs_readdir fs path) as [ents|]; [|discriminate].
    destruct (scan_directory fs path ents []) as [names| |] eqn:Hscan; [|discriminate..].
    simpl. intros [= <-]. apply Forall_forall. intros p Hp.
    rewrite std_sort_permutation in Hp.
    apply (scan_directory_members _ _ _ _ Hscan) in Hp as [Hp|(d & _ & -> & Hbit)].
    { by apply elem_of_nil in Hp. }
    unfold has_S_IFREG_bit in Hbit.
    destruct (fs_stat fs (entry_path path d)); [eauto | discriminate].
  - intros [= <-]. apply Forall_singleton. eauto.
Qed.

Lemma init_rules_files_existing rules_files added :
  init_rules_files fs rules_files [] = Ok added →
  Forall (fun p => is_Some (fs_stat fs p)) added.
Proof.
  revert added. induction rules_files as [|file files IH]; intros added; simpl.
  - intros [= <-]. constructor.
  - destruct (fs_stat fs file); [|apply IH].
    destruct (read_rules_file_directory fs file []) as [out1| |] eqn:Hread;
      simpl; [|discriminate..].
    rewrite init_rules_files_prepend.
    destruct (init_rules_files fs files []) as [out2| |] eqn:Hrest; [|discriminate..].
    simpl. intros [= <-]. apply Forall_app. split.
    + by apply (read_rules_file_directory_existing file).
    + by apply IH.
Qed.

(** X4: a run that returns keeps the list it started from in front, in its
    order, and every path it adds behind is one that [stat] finds. *)
Theorem init_rules_files_adds_existing_paths (rules_files m_rules_filenames out : list string) :
  init_rules_files fs rules_files m_rules_filenames = Ok out →
  ∃ added, out = m_rules_filenames ++ added ∧
           Forall (fun p => is_Some (fs_stat fs p)) added.
Proof.
  rewrite init_rules_files_prepend.
  destruct (init_rules_files fs rules_files []) as [added| |] eqn:Hrun; [|discriminate..].
  simpl. intros [= <-]. exists added. split; [reflexivity|].
  by apply (init_rules_files_existing rules_files).
Qed.
End rules_files_further.

Lemma init_rules_files_adds_existing_paths_witness :
  ∃ added,
    [ "/etc/falco/falco_rules.yaml"; "/etc/falco/rules.d/a.yaml";
      "/etc/falco/rules.d/b.yaml"; "/etc/falco/rules.d/falco.sock" ] = [] ++ added ∧
    Forall (fun p => is_Some (fs_stat example_fs p)) added.
Proof.
  apply (init_rules_files_adds_existing_paths example_fs
           ["/etc/falco/falco_rules.yaml"; "/etc/falco/missing.yaml"; "/etc/falco/rules.d"]).
  vm_compute. reflexivity.
Defined.

Lemma land_type_bit (st_mode bit : Z) :
  Z.land S_IFMT bit = bit → Z.land st_mode bit = Z.land (Z.land st_mode S_IFMT) bit.
Proof. intros Hbit. by rewrite <- Z.land_assoc, Hbit. Qed.

Lemma Sorted_entry_path_inv path (names : list string) :
  Sorted string_le (entry_path path <$> names) → Sorted string_le names.
Proof.
  induction names as [|d names IH]; [constructor|].
  rewrite fmap_cons. intros Hsorted. apply Sorted_inv in Hsorted as [Htail Hhead].
  constructor; [by apply IH|].
  destruct names as [|d' names]; [constructor|].
  rewrite fmap_cons in Hhead. apply HdRel_inv in Hhead.
  constructor. by apply string_le_entry_path in Hhead.
Qed.

Lemma filter_entry_path (P : string → Prop) `{∀ p, Decision (P p)} path (ents : list string) :
  filter P (entry_path path <$> ents) =
  entry_path path <$> filter (fun d_name => P (entry_path path d_name)) ents.
Proof.
  induction ents as [|d ents IH]; [reflexivity|].
  rewrite fmap_cons, !filter_cons, IH. by destruct (decide (P (entry_path path d))).
Qed.

Section rules_directories.
Variable fs : filesystem.

(** X5: the expansion of a directory goes one level deep and no further.
    What it appends are paths of entries of the directory itself, and an
    entry that is a directory (the two dot entries with it), a device or a
    named pipe is never among them. *)
Theorem directory_expansion_one_level path st_mode ents rules_filenames out :
  fs_stat fs path = Some st_mode → Z.land st_mode S_IFDIR ≠ 0 →
  fs_readdir fs path = Some ents →
  read_rules_file_directory fs path rules_filenames = Ok out →
  ∃ added,
    out = rules_filenames ++ added ∧
    (∀ p, p ∈ added → ∃ d_name, d_name ∈ ents ∧ p = entry_path path d_name) ∧
    (∀ d_name m, fs_stat fs (entry_path path d_name) = Some m → left_out_type m →
                 entry_path path d_name ∉ added).
Proof.
  intros Hst Hdir Hents. unfold read_rules_file_directory.
  rewrite Hst, bool_decide_eq_true_2, Hents by done.
  destruct (scan_directory fs path ents []) as [names| |] eqn:Hscan; [|discriminate..].
  simpl. intros [= <-]. exists (std_sort names). split; [reflexivity|].
  pose proof (scan_directory_members fs _ _ _ _ Hscan) as Hmem. split.
  - intros p Hp. rewrite std_sort_permutation in Hp.
    apply Hmem in Hp as [Hp|(d & Hd & -> & _)]; [by apply elem_of_nil in Hp | eauto].
  - intros d m Hm Hty Hin. rewrite std_sort_permutation in Hin.
    apply Hmem in Hin as [Hin|(d' & _ & _ & Hbit)]; [by apply elem_of_nil in Hin|].
    unfold has_S_IFREG_bit in Hbit. rewrite Hm in Hbit.
    apply bool_decide_eq_true in Hbit. apply Hbit.
    rewrite (land_type_bit m S_IFREG) by reflexivity.
    unfold left_out_type in Hty.
    repeat (apply elem_of_cons in Hty as [->|Hty]; [reflexivity|]).
    by apply elem_of_nil in Hty.
Qed.

(** X6: a directory that [opendir] cannot open, or one with an entry that
    [stat] cannot examine, ends the process with status -1 once the
    entries in front of it have been resolved: no list comes out, and the
    entries behind it are not looked at. *)
Theorem rules_directory_failure_exits (pre post : list string) path st_mode
    (m_rules_filenames front : list string) :
  init_rules_files fs pre m_rules_filenames = Ok front →
  fs_stat fs path = Some st_mode → Z.land st_mode S_IFDIR ≠ 0 →
  (fs_readdir fs path = None ∨
   ∃ ents d_name, fs_readdir fs path = Some ents ∧ d_name ∈ ents ∧
                  fs_stat fs (entry_path path d_name) = None) →
  init_rules_files fs (pre ++ path :: post) m_rules_filenames = Exit (-1).
Proof.
  intros Hpre Hst Hdir Hfail.
  rewrite (init_rules_files_inlines fs pre post path _ front Hpre) by eauto.
  unfold read_rules_file_directory. rewrite Hst, bool_decide_eq_true_2 by done.
  destruct Hfail as [-> | (ents & d & -> & Hd & Hgone)]; [reflexivity|].
  rewrite scan_directory_Exit; [reflexivity|].
  apply Exists_exists. eauto.
Qed.

(** X7: an entry that is a regular file, a character device or a named
    pipe is appended as it is written, right behind what the entries in
    front of it gave, and the run goes on with the entries behind it. *)
Theorem plain_entry_appended (pre post : list string) file st_mode
    (m_rules_filenames front : list string) :
  init_rules_files fs pre m_rules_filenames = Ok front →
  fs_stat fs file = Some st_mode → plain_type st_mode →
  init_rules_files fs (pre ++ file :: post) m_rules_filenames
  = init_rules_files fs post (front ++ [file]).
Proof.
  intros Hpre Hst Hty.
  rewrite (init_rules_files_inlines fs pre post file _ front Hpre) by eauto.
  rewrite (read_rules_file_directory_file fs file st_mode); [reflexivity | done |].
  rewrite (land_type_bit st_mode S_IFDIR) by reflexivity.
  unfold plain_type in Hty.
  repeat (apply elem_of_cons in Hty as [->|Hty]; [reflexivity|]).
  by apply elem_of_nil in Hty.
Qed.

(** X8: a directory that can be read, whose entries can all be examined
    and none of which is a socket, gives the paths of its regular files
    and nothing else, each once for each time [readdir] names it, in the
    byte order of the names. *)
Theorem directory_expansion_sorted_by_name path st_mode ents rules_filenames :
  fs_stat fs path = Some st_mode → S_ISDIR st_mode →
  fs_readdir fs path = Some ents →
  Forall (fun d_name => ∃ m, fs_stat fs (entry_path path d_name) = Some m ∧
                             no_socket_type m) ents →
  ∃ names,
    read_rules_file_directory fs path rules_filenames
    = Ok (rules_filenames ++ (entry_path path <$> names)) ∧
    Sorted string_le names ∧
    names ≡ₚ filter (fun d_name => is_regular_file fs (entry_path path d_name)) ents.
Proof.
  intros Hst Hdir Hents Hall.
  destruct (read_rules_file_directory_regular_files fs path st_mode ents rules_filenames
              Hst Hdir Hents Hall) as (sorted & Hrun & Hsorted & Hperm).
  rewrite filter_entry_path in Hperm.
  apply Permutation_map_inv in Hperm as (names & -> & Hnames).
  exists names. split; [exact Hrun|]. split.
  - by apply (Sorted_entry_path_inv path).
  - by symmetry.
Qed.
End rules_directories.

Lemma directory_expansion_one_level_witness :
  ∃ added,
    [ "/etc/falco/rules.d/a.yaml"; "/etc/falco/rules.d/b.yaml";
      "/etc/falco/rules.d/falco.sock" ] = [] ++ added ∧
    (∀ p, p ∈ added →
          ∃ d_name, d_name ∈ ["."; ".."; "b.yaml"; "falco.sock"; "sub"; "a.yaml"] ∧
                    p = entry_path "/etc/falco/rules.d" d_name) ∧
    (∀ d_name m,
       fs_stat example_fs (entry_path "/etc/falco/rules.d" d_name) = Some m →
       left_out_type m → entry_path "/etc/falco/rules.d" d_name ∉ added).
Proof.
  apply (directory_expansion_one_level example_fs "/etc/falco/rules.d" 16877).
  - vm_compute. reflexivity.
  - vm_compute. discriminate.
  - vm_compute. reflexivity.
  - vm_compute. reflexivity.
Defined.

Lemma rules_directory_failure_exits_witness :
  init_rules_files broken_fs
    (["/etc/falco/falco_rules.yaml"] ++ "/etc/falco/rules.d" :: ["/etc/falco/private.d"]) []
  = Exit (-1) ∧
  init_rules_files broken_fs
    (["/etc/falco/falco_rules.yaml"] ++ "/etc/falco/private.d" :: ["/etc/falco/rules.d"]) []
  = Exit (-1).
Proof.
  split.
  - apply (rules_directory_failure_exits broken_fs _ _ _ 16877 []
             ["/etc/falco/falco_rules.yaml"]).
    + vm_compute. reflexivity.
    + vm_compute. reflexivity.
    + vm_compute. discriminate.
    + right. exists ["."; ".."; "a.yaml"; "gone.yaml"], "gone.yaml".
      split; [vm_compute; reflexivity|]. split; [|vm_compute; reflexivity].
      do 3 apply list_elem_of_further. apply list_elem_of_here.
  - apply (rules_directory_failure_exits broken_fs _ _ _ 16832 []
             ["/etc/falco/falco_rules.yaml"]).
    + vm_compute. reflexivity.
    + vm_compute. reflexivity.
    + vm_compute. discriminate.
    + left. vm_compute. reflexivity.
Defined.

Lemma plain_entry_appended_witness :
  init_rules_files example_fs
    (["/etc/falco/falco_rules.yaml"] ++ "/etc/falco/rules.pipe" :: ["/etc/falco/rules.d"]) []
  = init_rules_files example_fs ["/etc/falco/rules.d"]
      (["/etc/falco/falco_rules.yaml"] ++ ["/etc/falco/rules.pipe"]).
Proof.
  apply (plain_entry_appended example_fs _ _ _ 4516).
  - vm_compute. reflexivity.
  - vm_compute. reflexivity.
  - unfold plain_type. do 2 apply list_elem_of_further. apply list_elem_of_here.
Defined.

Lemma directory_expansion_sorted_by_name_witness :
  ∃ names,
    read_rules_file_directory broken_fs "/etc/falco" ["/etc/falco/k8s.yaml"]
    = Ok (["/etc/falco/k8s.yaml"] ++ (entry_path "/etc/falco" <$> names)) ∧
    Sorted string_le names ∧
    names ≡ₚ filter (fun d_name => is_regular_file broken_fs (entry_path "/etc/falco" d_name))
               ["."; ".."; "rules.d"; "private.d"; "falco_rules.yaml"].
Proof.
  apply (directory_expansion_sorted_by_name broken_fs "/etc/falco" 16877).
  - vm_compute. reflexivity.
  - vm_compute. reflexivity.
  - vm_compute. reflexivity.
  - repeat apply Forall_cons_2; [..|apply Forall_nil_2]; eexists;
      (split; [vm_compute; reflexivity|]);
      apply (bool_decide_unpack _); vm_compute; exact I.
Defined.

(** ** Outputs *)

Section init_outputs_further.
Context {doc : Type} `{YamlConfiguration doc}.
Variable m_config_file : string.
Variable m_config : doc.

Let file_error : string :=
  error_reading m_config_file "file output enabled but no filename in configuration block".
Let program_error : string :=
  error_reading m_config_file "program output enabled but no program in configuration block".
Let http_error : string :=
  error_reading m_config_file "http output enabled but no url in configuration block".

(** X9: a sink that is turned on without the parameter it needs makes
    [init] throw, and the error is that of the first such sink in the order
    file, program, http: a missing file name is reported whatever the other
    sinks hold, a missing program once the file sink is in order, a missing
    URL once both are. None of them gets as far as the check that some
    sink is configured. *)
Theorem init_outputs_missing_parameter (m_outputs : list outputs.config) :
  (get_scalar_bool m_config "file_output.enabled" false = true →
   get_scalar_string m_config "file_output.filename" EmptyString = EmptyString →
   init_outputs m_config_file m_config m_outputs = Throw file_error) ∧
  (∀ outs,
     file_output m_config_file m_config m_outputs = Ok outs →
     get_scalar_bool m_config "program_output.enabled" false = true →
     get_scalar_string m_config "program_output.program" EmptyString = EmptyString →
     init_outputs m_config_file m_config m_outputs = Throw program_error) ∧
  (∀ outs outs',
     file_output m_config_file m_config m_outputs = Ok outs →
     program_output m_config_file m_config
       (syslog_output m_config (stdout_output m_config outs)) = Ok outs' →
     get_scalar_bool m_config "http_output.enabled" false = true →
     get_scalar_string m_config "http_output.url" EmptyString = EmptyString →
     init_outputs m_config_file m_config m_outputs = Throw http_error).
Proof.
  unfold init_outputs, select_outputs. split; [|split].
  - intros Hon Hname. unfold file_output. by rewrite Hon, Hname.
  - intros outs -> Hon Hprogram. simpl. unfold program_output.
    by rewrite Hon, Hprogram.
  - intros outs outs' -> Hprogram Hon Hurl. simpl. rewrite Hprogram. simpl.
    unfold http_output. by rewrite Hon, Hurl.
Qed.

(** X10: a sink that is turned on with its parameter is appended with its
    options filled in from the document: the file sink carries [filename]
    and [keep_alive], the program sink [program] and [keep_alive], the
    HTTP sink [url] and [user_agent], which is [falcosecurity/falco] when
    the document has none. A sink that is turned off leaves the list as it
    is. *)
Theorem output_sink_options (m_outputs : list outputs.config) :
  (get_scalar_bool m_config "file_output.enabled" false = true →
   get_scalar_string m_config "file_output.filename" EmptyString ≠ EmptyString →
   ∃ sink,
     file_output m_config_file m_config m_outputs = Ok (m_outputs ++ [sink]) ∧
     outputs.name sink = "file" ∧
     outputs.options sink !! "filename"
       = Some (get_scalar_string m_config "file_output.filename" EmptyString) ∧
     outputs.options sink !! "keep_alive"
       = Some (get_scalar_string m_config "file_output.keep_alive" EmptyString) ∧
     dom (outputs.options sink) = {["filename"; "keep_alive"]}) ∧
  (get_scalar_bool m_config "program_output.enabled" false = true →
   get_scalar_string m_config "program_output.program" EmptyString ≠ EmptyString →
   ∃ sink,
     program_output m_config_file m_config m_outputs = Ok (m_outputs ++ [sink]) ∧
     outputs.name sink = "program" ∧
     outputs.options sink !! "program"
       = Some (get_scalar_string m_config "program_output.program" EmptyString) ∧
     outputs.options sink !! "keep_alive"
       = Some (get_scalar_string m_config "program_output.keep_alive" EmptyString) ∧
     dom (outputs.options sink) = {["program"; "keep_alive"]}) ∧
  (get_scalar_bool m_config "http_output.enabled" false = true →
   get_scalar_string m_config "http_output.url" EmptyString ≠ EmptyString →
   ∃ sink,
     http_output m_config_file m_config m_outputs = Ok (m_outputs ++ [sink]) ∧
     outputs.name sink = "http" ∧
     outputs.options sink !! "url"
       = Some (get_scalar_string m_config "http_output.url" EmptyString) ∧
     outputs.options sink !! "user_agent"
       = Some (get_scalar_string m_config "http_output.user_agent" "falcosecurity/falco") ∧
     dom (outputs.options sink) = {["url"; "user_agent"]}) ∧
  (get_scalar_bool m_config "file_output.enabled" false = false →
   file_output m_config_file m_config m_outputs = Ok m_outputs) ∧
  (get_scalar_bool m_config "program_output.enabled" false = false →
   program_output m_config_file m_config m_outputs = Ok m_outputs) ∧
  (get_scalar_bool m_config "http_output.enabled" false = false →
   http_output m_config_file m_config m_outputs = Ok m_outputs).
Proof.
  split; [|split; [|split; [|split; [|split]]]].
  - intros Hon Hname. unfold file_output. rewrite Hon.
    apply String.eqb_neq in Hname. rewrite Hname. eexists. split; [reflexivity|].
    simpl. split; [done|]. split; [by rewrite lookup_insert_ne, lookup_insert_eq|].
    split; [by rewrite lookup_insert_eq|].
    rewrite !dom_insert_L, dom_empty_L. set_solver.
  - intros Hon Hname. unfold program_output. rewrite Hon.
    apply String.eqb_neq in Hname. rewrite Hname. eexists. split; [reflexivity|].
    simpl. split; [done|]. split; [by rewrite lookup_insert_ne, lookup_insert_eq|].
    split; [by rewrite lookup_insert_eq|].
    rewrite !dom_insert_L, dom_empty_L. set_solver.
  - intros Hon Hname. unfold http_output. rewrite Hon.
    apply String.eqb_neq in Hname. rewrite Hname. eexists. split; [reflexivity|].
    simpl. split; [done|]. split; [by rewrite lookup_insert_ne, lookup_insert_eq|].
    split; [by rewrite lookup_insert_eq|].
    rewrite !dom_insert_L, dom_empty_L. set_solver.
  - intros Hoff. unfold file_output. by rewrite Hoff.
  - intros Hoff. unfold program_output. by rewrite Hoff.
  - intros Hoff. unfold http_output. by rewrite Hoff.
Qed.

Lemma select_outputs_prepend (m_outputs : list outputs.config) :
  select_outputs m_config_file m_config m_outputs =
    outs ← select_outputs m_config_file m_config []; Ok (m_outputs ++ outs).
Proof.
  unfold select_outputs, file_output, stdout_output, syslog_output, program_output,
    http_output, grpc_output.
  repeat (case_match; simpl; try reflexivity);
    rewrite <- ?app_assoc, ?app_nil_r; reflexivity.
Qed.

(** X11: on a fresh configuration object the sinks that come out of
    [init] are in the order file, stdout, syslog, program, http, grpc,
    each kind at most once, and there is at least one of them. On an object
    that already has sinks they are appended behind those. *)
Theorem init_outputs_fixed_order (m_outputs outs : list outputs.config) :
  init_outputs m_config_file m_config m_outputs = Ok outs →
  outs ≠ [] ∧
  ∃ added, outs = m_outputs ++ added ∧
           outputs.name <$> added `sublist_of` sink_order ∧
           NoDup (outputs.name <$> added) ∧
           (length added ≤ 6)%nat.
Proof.
  unfold init_outputs. rewrite select_outputs_prepend.
  destruct (select_outputs m_config_file m_config []) as [added| |] eqn:Hsel;
    simpl; [|discriminate..].
  case_bool_decide as Hlen; [discriminate|]. intros [= <-].
  split; [intros E; apply Hlen; by rewrite E|]. exists added. split; [reflexivity|].
  assert (Hsub : outputs.name <$> added `sublist_of` sink_order).
  { revert Hsel.
    unfold select_outputs, file_output, stdout_output, syslog_output, program_output,
      http_output, grpc_output.
    repeat (case_match; simpl; try discriminate); intros [= <-]; simpl;
      repeat first [apply sublist_nil | apply sublist_skip | apply sublist_cons]. }
  split; [exact Hsub|]. split.
  - apply (sublist_NoDup _ sink_order); [|exact Hsub].
    apply (bool_decide_unpack _). by vm_compute.
  - apply sublist_length in Hsub. by rewrite length_fmap in Hsub.
Qed.

(** X12: the outputs part of [init] never ends the process, and when it
    throws, the error is one of four: a file sink without file name, a
    program sink without program, an HTTP sink without URL, or no sink at
    all. *)
Theorem init_outputs_errors (m_outputs : list outputs.config) :
  (∀ status, init_outputs m_config_file m_config m_outputs ≠ Exit status) ∧
  (∀ what, init_outputs m_config_file m_config m_outputs = Throw what →
           what ∈ [file_error; program_error; http_error;
                   no_outputs_error m_config_file]).
Proof.
  unfold init_outputs, select_outputs, file_output, stdout_output, syslog_output,
    program_output, http_output, grpc_output.
  split.
  - intros status. repeat (case_match; simpl; try discriminate).
  - intros what. repeat (case_match; simpl; try discriminate); intros [= <-];
      subst file_error program_error http_error;
      repeat first [apply list_elem_of_here | apply list_elem_of_further].
Qed.
End init_outputs_further.

Lemma init_outputs_missing_parameter_witness :
  init_outputs "/etc/falco/falco.yaml" no_parameters_doc []
  = Throw (error_reading "/etc/falco/falco.yaml"
             "file output enabled but no filename in configuration block").
Proof.
  apply (init_outputs_missing_parameter "/etc/falco/falco.yaml" no_parameters_doc []);
    vm_compute; reflexivity.
Defined.

Lemma output_sink_options_witness :
  ∃ sink,
    file_output "/etc/falco/falco.yaml" file_http_doc [] = Ok ([] ++ [sink]) ∧
    outputs.name sink = "file" ∧
    outputs.options sink !! "filename"
      = Some (get_scalar_string file_http_doc "file_output.filename" EmptyString) ∧
    outputs.options sink !! "keep_alive"
      = Some (get_scalar_string file_http_doc "file_output.keep_alive" EmptyString) ∧
    dom (outputs.options sink) = {["filename"; "keep_alive"]}.
Proof.
  apply (output_sink_options "/etc/falco/falco.yaml" file_http_doc []).
  - vm_compute. reflexivity.
  - vm_compute. discriminate.
Defined.

Lemma init_outputs_fixed_order_witness :
  ∃ file_sink http_sink added,
    init_outputs "/etc/falco/falco.yaml" file_http_doc [] = Ok [file_sink; http_sink] ∧
    [file_sink; http_sink] = [] ++ added ∧
    outputs.name <$> added `sublist_of` sink_order ∧
    NoDup (outputs.name <$> added) ∧ (length added ≤ 6)%nat.
Proof.
  eexists _, _.
  assert (Hrun : init_outputs "/etc/falco/falco.yaml" file_http_doc [] = Ok _)
    by (vm_compute; reflexivity).
  destruct (init_outputs_fixed_order "/etc/falco/falco.yaml" file_http_doc [] _ Hrun)
    as (_ & added & Hadded & Hsub & Hdup & Hlen).
  exists added. split; [exact Hrun|]. by repeat split.
Defined.

Lemma init_outputs_errors_witness :
  no_outputs_error "/etc/falco/falco.yaml"
  ∈ [ error_reading "/etc/falco/falco.yaml"
        "file output enabled but no filename in configuration block";
      error_reading "/etc/falco/falco.yaml"
        "program output enabled but no program in configuration block";
      error_reading "/etc/falco/falco.yaml"
        "http output enabled but no url in configuration block";
      no_outputs_error "/etc/falco/falco.yaml" ].
Proof.
  apply (init_outputs_errors "/etc/falco/falco.yaml" grpc_sink_only_doc []).
  vm_compute. reflexivity.
Defined.

(** ** Actions on dropped system call events *)

Lemma action_of_name_Some act a :
  action_of_name act = Some a ↔
  (act = "ignore" ∧ a = IGNORE) ∨ (act = "log" ∧ a = LOG) ∨
  (act = "alert" ∧ a = ALERT) ∨ (act = "exit" ∧ a = EXIT).
Proof.
  unfold action_of_name.
  destruct (String.eqb_spec act "ignore") as [->|Hi]; simpl.
  { split; [intros [= <-]; by left|]. intros [[_ ->]|[[? _]|[[? _]|[? _]]]]; done. }
  destruct (String.eqb_spec act "log") as [->|Hl]; simpl.
  { split; [intros [= <-]; right; by left|].
    intros [[? _]|[[_ ->]|[[? _]|[? _]]]]; done. }
  destruct (String.eqb_spec act "alert") as [->|Ha]; simpl.
  { split; [intros [= <-]; right; right; by left|].
    intros [[? _]|[[? _]|[[_ ->]|[? _]]]]; done. }
  destruct (String.eqb_spec act "exit") as [->|He]; simpl.
  { split; [intros [= <-]; right; right; by right|].
    intros [[? _]|[[? _]|[[? _]|[_ ->]]]]; done. }
  split; [discriminate|]. intros [[? _]|[[? _]|[[? _]|[? _]]]]; done.
Qed.

Section init_syscall_event_drops_further.
Variable m_config_file : string.

(** One turn of the loop, by the action the name stands for. *)
Lemma add_drop_action_by_name act (actions : gset syscall_evt_drop_action) :
  add_drop_action m_config_file act actions =
    match action_of_name act with
    | Some IGNORE => Ok ({[IGNORE]} ∪ actions)
    | Some EXIT => Ok ({[EXIT]} ∪ actions)
    | Some a =>
        if bool_decide (IGNORE ∈ actions)
        then Throw (ignore_conflict_error m_config_file act)
        else Ok ({[a]} ∪ actions)
    | None => Throw (unknown_action_error m_config_file)
    end.
Proof.
  unfold add_drop_action, action_of_name.
  repeat (destruct (String.eqb act _); [reflexivity|]). reflexivity.
Qed.

Lemma add_drop_actions_Ok_named (acts : list string)
    (actions0 actions : gset syscall_evt_drop_action) :
  add_drop_actions m_config_file acts actions0 = Ok actions →
  Forall (fun act => is_Some (action_of_name act)) acts ∧
  actions = actions0 ∪ named_actions acts.
Proof.
  unfold named_actions. revert actions0 actions.
  induction acts as [|act acts IH]; intros actions0 actions; simpl.
  - intros [= <-]. split; [constructor|]. simpl. by rewrite (right_id_L ∅ (∪)).
  - rewrite add_drop_action_by_name.
    destruct (action_of_name act) as [a|] eqn:Hname; [|discriminate].
    assert (Hstep : ∀ s, add_drop_actions m_config_file acts ({[a]} ∪ actions0) = Ok s →
                         Forall (fun act => is_Some (action_of_name act)) (act :: acts) ∧
                         s = actions0 ∪ list_to_set (a :: omap action_of_name acts)).
    { intros s Hrun. apply IH in Hrun as [Hknown ->]. split.
      - constructor; [by rewrite Hname | done].
      - simpl. rewrite (comm_L (∪) {[a]} actions0). by rewrite (assoc_L (∪)). }
    destruct a; try case_bool_decide; simpl; try discriminate; intros Hrun;
      by apply Hstep in Hrun.
Qed.

(** X13: when the loop over the names returns, every name was one of
    [ignore], [log], [alert] and [exit], and the set is the one the loop
    started from with exactly the actions the names stand for added: an
    action is in it when it was there from the start or one of the names
    stands for it, and only then. Nothing is taken out, and a name given
    twice counts once. *)
Theorem drop_actions_are_the_named_ones (acts : list string)
    (actions0 actions : gset syscall_evt_drop_action) :
  add_drop_actions m_config_file acts actions0 = Ok actions →
  Forall (fun act => is_Some (action_of_name act)) acts ∧
  actions = actions0 ∪ named_actions acts ∧
  (∀ a, a ∈ actions ↔
        a ∈ actions0 ∨ ∃ act, act ∈ acts ∧ action_of_name act = Some a).
Proof.
  intros [Hknown ->]%add_drop_actions_Ok_named.
  split; [exact Hknown|]. split; [reflexivity|].
  intros a. unfold named_actions.
  rewrite elem_of_union, elem_of_list_to_set, list_elem_of_omap. reflexivity.
Qed.

(** X14: the set [init] ends up with is never empty. It is [{IGNORE}] when
    the document names no action, and this default is the only action
    [init] adds by itself: as soon as one name is given, the set holds the
    named actions and the ones it started with, nothing more. *)
Theorem drop_actions_never_empty (acts : list string)
    (actions0 actions : gset syscall_evt_drop_action) :
  init_syscall_event_drop_actions m_config_file acts actions0 = Ok actions →
  actions ≠ ∅ ∧
  (acts = [] → actions0 = ∅ → actions = {[IGNORE]}) ∧
  (acts ≠ [] → actions = actions0 ∪ named_actions acts).
Proof.
  unfold init_syscall_event_drop_actions.
  destruct (add_drop_actions m_config_file acts actions0) as [s| |] eqn:Hrun;
    simpl; [|discriminate..].
  apply add_drop_actions_Ok_named in Hrun as [Hknown ->].
  case_bool_decide as Hempty; intros [= <-].
  - rewrite Hempty, (right_id_L ∅ (∪)).
    split; [apply (non_empty_inhabited_L IGNORE); by apply elem_of_singleton_2|].
    split; [done|].
    intros Hne. destruct acts as [|act acts]; [done|].
    apply Forall_cons in Hknown as [[a Ha] _].
    unfold named_actions in Hempty. simpl in Hempty. rewrite Ha in Hempty.
    exfalso. apply (non_empty_inhabited_L a (actions0 ∪ list_to_set (a :: omap action_of_name acts)));
      [|exact Hempty].
    simpl. apply elem_of_union_r, elem_of_union_l. by apply elem_of_singleton_2.
  - split; [done|]. split; [|done].
    intros -> ->. exfalso. apply Hempty. unfold named_actions. simpl.
    by rewrite (left_id_L ∅ (∪)).
Qed.

(** X15: a name that is none of [ignore], [log], [alert] and [exit] as
    written, for one a name in upper case, makes [init] throw the error
    that lists the four names, once the names in front of it have been
    taken in. *)
Theorem drop_actions_unknown_name (pre post : list string) act
    (actions0 actions : gset syscall_evt_drop_action) :
  add_drop_actions m_config_file pre actions0 = Ok actions →
  action_of_name act = None →
  add_drop_actions m_config_file (pre ++ act :: post) actions0
  = Throw (unknown_action_error m_config_file) ∧
  init_syscall_event_drop_actions m_config_file (pre ++ act :: post) actions0
  = Throw (unknown_action_error m_config_file).
Proof.
  intros Hpre Hname.
  assert (Hrun : add_drop_actions m_config_file (pre ++ act :: post) actions0
                 = Throw (unknown_action_error m_config_file)).
  { rewrite add_drop_actions_app, Hpre. simpl.
    by rewrite add_drop_action_by_name, Hname. }
  split; [exact Hrun|]. unfold init_syscall_event_drop_actions. by rewrite Hrun.
Qed.
End init_syscall_event_drops_further.

Lemma drop_actions_are_the_named_ones_witness :
  Forall (fun act => is_Some (action_of_name act)) ["exit"; "log"; "exit"; "ignore"] ∧
  ({[IGNORE; EXIT; LOG]} : gset syscall_evt_drop_action)
  = ∅ ∪ named_actions ["exit"; "log"; "exit"; "ignore"] ∧
  (∀ a, a ∈ ({[IGNORE; EXIT; LOG]} : gset syscall_evt_drop_action) ↔
        a ∈ (∅ : gset syscall_evt_drop_action) ∨
        ∃ act, act ∈ ["exit"; "log"; "exit"; "ignore"] ∧ action_of_name act = Some a).
Proof.
  apply (drop_actions_are_the_named_ones "/etc/falco/falco.yaml").
  vm_compute. reflexivity.
Defined.

Lemma drop_actions_never_empty_witness :
  ({[IGNORE]} : gset syscall_evt_drop_action) ≠ ∅ ∧
  ({[EXIT]} : gset syscall_evt_drop_action) = ∅ ∪ named_actions ["exit"].
Proof.
  split.
  - apply (drop_actions_never_empty "/etc/falco/falco.yaml" [] ∅). vm_compute. reflexivity.
  - apply (drop_actions_never_empty "/etc/falco/falco.yaml" ["exit"] ∅).
    + vm_compute. reflexivity.
    + discriminate.
Defined.

Lemma drop_actions_unknown_name_witness :
  init_syscall_event_drop_actions "/etc/falco/falco.yaml"
    (["log"] ++ "IGNORE" :: ["exit"]) ∅
  = Throw (unknown_action_error "/etc/falco/falco.yaml").
Proof.
  apply (drop_actions_unknown_name "/etc/falco/falco.yaml" ["log"] ["exit"] "IGNORE"
           ∅ ({[LOG]} ∪ ∅)); reflexivity.
Defined.

Lemma nothing_logged_after_ignore_cons act (acts : list string) :
  nothing_logged_after_ignore (act :: acts) ↔
  (act = "ignore" → no_log_no_alert acts) ∧ nothing_logged_after_ignore acts.
Proof.
  unfold nothing_logged_after_ignore. split.
  - intros Hall. split.
    + intros ->. by apply (Hall []).
    + intros pre post ->. by apply (Hall (act :: pre)).
  - intros [Hhead Htail] pre post E. destruct pre as [|a pre]; simpl in E.
    + injection E as -> ->. by apply Hhead.
    + injection E as -> ->. by apply (Htail pre).
Qed.

Lemma no_log_no_alert_cons act (acts : list string) :
  no_log_no_alert (act :: acts) ↔ act ≠ "log" ∧ act ≠ "alert" ∧ no_log_no_alert acts.
Proof.
  unfold no_log_no_alert. rewrite !not_elem_of_cons. split.
  - intros [[? ?] [? ?]]. repeat split; congruence.
  - intros (? & ? & ? & ?). repeat split; congruence.
Qed.

Section init_syscall_event_drops_accepts.
Variable m_config_file : string.

(** X16: which lists of names the loop takes in. The loop returns exactly
    when every name is one of the four, no [log] and no [alert] stands
    behind an [ignore], and, if [IGNORE] was in the set from the start, no
    [log] and no [alert] stands anywhere. The other order is accepted: an
    [ignore] behind a [log] or an [alert] is no error. *)
Theorem drop_actions_accepted (acts : list string)
    (actions0 : gset syscall_evt_drop_action) :
  returns (add_drop_actions m_config_file acts actions0) ↔
  Forall (fun act => is_Some (action_of_name act)) acts ∧
  nothing_logged_after_ignore acts ∧
  (IGNORE ∈ actions0 → no_log_no_alert acts).
Proof.
  revert actions0. induction acts as [|act acts IH]; intros actions0.
  - split; [|by exists actions0]. intros _. split; [constructor|]. split.
    + intros pre post E. by destruct pre.
    + intros _. split; apply not_elem_of_nil.
  - simpl add_drop_actions. rewrite add_drop_action_by_name.
    rewrite Forall_cons, nothing_logged_after_ignore_cons, no_log_no_alert_cons.
    destruct (action_of_name act) as [a|] eqn:Hname.
    2:{ simpl. split; [by intros [? ?] | by intros [[[? ?] _] _]]. }
    apply action_of_name_Some in Hname.
    assert (Hother : ∀ b : syscall_evt_drop_action, b ≠ IGNORE →
              (IGNORE ∈ ({[b]} ∪ actions0 : gset _) ↔ IGNORE ∈ actions0)).
    { intros b Hb. rewrite elem_of_union, elem_of_singleton.
      split; [intros [?|?]; [congruence | done] | by right]. }
    assert (Hsome : ∀ b : syscall_evt_drop_action, is_Some (Some b)) by eauto.
    assert (Hfirst : IGNORE ∈ ({[IGNORE]} ∪ actions0 : gset _))
      by (apply elem_of_union_l; by apply elem_of_singleton_2).
    destruct Hname as [[-> ->]|[[-> ->]|[[-> ->]|[-> ->]]]]; simpl.
    + rewrite IH. specialize (Hsome IGNORE).
      intuition (try done; try congruence).
    + specialize (Hsome LOG). case_bool_decide as Hin; simpl.
      * split; [by intros [? ?]|]. intuition (try done; try congruence).
      * rewrite IH, (Hother LOG) by done. intuition (try done; try congruence).
    + specialize (Hsome ALERT). case_bool_decide as Hin; simpl.
      * split; [by intros [? ?]|]. intuition (try done; try congruence).
      * rewrite IH, (Hother ALERT) by done. intuition (try done; try congruence).
    + specialize (Hsome EXIT). rewrite IH, (Hother EXIT) by done.
      intuition (try done; try congruence).
Qed.
End init_syscall_event_drops_accepts.

(** ** Metadata download *)

Section init_metadata_download_further.
Context {doc : Type} `{YamlConfiguration doc}.
Variable m_config_file : string.
Variable m_config : doc.

(** X17: the three metadata settings come out of [init] exactly when the
    maximum size is at most 1024 and the watch frequency is not zero, and
    they are then the values read from the document; the wait between
    chunks is not checked at all. A watch frequency of zero throws its own
    error once the maximum size has passed. *)
Theorem init_metadata_download_result :
  let max_mb := get_scalar_uint32 m_config "metadata_download.max_mb" 100 in
  let chunk_wait_us := get_scalar_uint32 m_config "metadata_download.chunk_wait_us" 1000 in
  let watch_freq_sec := get_scalar_uint32 m_config "metadata_download.watch_freq_sec" 1 in
  (max_mb ≤ 1024 ∧ watch_freq_sec ≠ 0 ↔
     init_metadata_download m_config_file m_config
     = Ok (max_mb, chunk_wait_us, watch_freq_sec)) ∧
  (returns (init_metadata_download m_config_file m_config) ↔
     max_mb ≤ 1024 ∧ watch_freq_sec ≠ 0) ∧
  (max_mb ≤ 1024 ∧ watch_freq_sec = 0 ↔
     init_metadata_download m_config_file m_config
     = Throw (watch_freq_error m_config_file)).
Proof.
  intros max_mb chunk_wait_us watch_freq_sec.
  unfold init_metadata_download, check_metadata_download_max_mb.
  fold max_mb chunk_wait_us watch_freq_sec.
  assert (Hne : max_mb_error m_config_file ≠ watch_freq_error m_config_file).
  { unfold max_mb_error, watch_freq_error, error_reading'. intros E.
    do 3 apply (inj (String.append _)) in E. discriminate E. }
  destruct (Z.ltb_spec 1024 max_mb) as [Hgt|Hle]; simpl.
  - split; [|split].
    + split; [lia | discriminate].
    + split; [intros [? [=]] | lia].
    + split; [lia | intros E; exfalso; apply Hne; congruence].
  - destruct (Z.eqb_spec watch_freq_sec 0) as [Hz|Hnz].
    + split; [|split].
      * split; [by intros [_ ?] | discriminate].
      * split; [intros [? [=]] | by intros [_ ?]].
      * split; [done | by intros _].
    + split; [|split].
      * split; [done | by intros _].
      * split; [by intros _ | by eexists].
      * split; [by intros [_ ?] | discriminate].
Qed.
End init_metadata_download_further.

(** ** Plugins *)

Section init_plugins_further.
Context {doc : Type} `{YamlConfiguration doc}.
Variable m_config_file : string.
Variable m_config : doc.

(** X18: [init] throws in its plugins part exactly when the declarations
    under [plugins] cannot be read, and the error then carries the reason
    behind the text that says the plugins configuration could not be
    loaded. The allow-list is never a cause of error: names in it that no
    declared plugin bears are passed over. *)
Theorem init_plugins_errors (m_plugins : list plugin_config) :
  (∀ what, get_sequence_plugins m_config "plugins" = inl what →
           init_plugins m_config_file m_config m_plugins
           = Throw (error_reading' m_config_file "could not load plugins config: "
                    +:+ what)) ∧
  (returns (init_plugins m_config_file m_config m_plugins) ↔
     ∃ plugins, get_sequence_plugins m_config "plugins" = inr plugins) ∧
  (∀ status, init_plugins m_config_file m_config m_plugins ≠ Exit status).
Proof.
  unfold init_plugins. split; [|split].
  - intros what ->. unfold plugins_error, error_reading'.
    by rewrite !string_app_assoc.
  - destruct (get_sequence_plugins m_config "plugins") as [what|plugins].
    + split; [intros [? [=]] | intros [? [=]]].
    + split; [by eauto | by eexists].
  - intros status. by destruct (get_sequence_plugins m_config "plugins").
Qed.

(** X19: the plugins that come out of [init] are the ones the object had,
    followed by declared plugins in the order of their declarations, none
    made up, none moved and none doubled; when the key [load_plugins] is
    in the document, each of the added ones bears a name of the list under
    that key. *)
Theorem init_plugins_keeps_order (m_plugins out : list plugin_config) :
  init_plugins m_config_file m_config m_plugins = Ok out →
  ∃ plugins kept,
    get_sequence_plugins m_config "plugins" = inr plugins ∧
    out = m_plugins ++ kept ∧
    kept `sublist_of` plugins ∧
    (is_defined m_config "load_plugins" = true →
     Forall (fun p => m_name p ∈ get_sequence m_config "load_plugins") kept).
Proof.
  unfold init_plugins.
  destruct (get_sequence_plugins m_config "plugins") as [what|plugins]; [discriminate|].
  rewrite save_plugins_filter. intros [= <-].
  eexists plugins, _. split; [reflexivity|]. split; [reflexivity|]. split.
  - apply sublist_filter.
  - intros Hdefined. apply Forall_forall. intros p [Hp _]%list_elem_of_filter.
    destruct Hp as [Hp|Hp]; [congruence|]. by apply elem_of_list_to_set in Hp.
Qed.
End init_plugins_further.

Lemma init_metadata_download_result_witness :
  init_metadata_download "/etc/falco/falco.yaml" watch_freq_zero_doc
  = Throw (watch_freq_error "/etc/falco/falco.yaml").
Proof.
  apply (init_metadata_download_result "/etc/falco/falco.yaml" watch_freq_zero_doc).
  split; [vm_compute; discriminate | vm_compute; reflexivity].
Defined.

Lemma init_plugins_errors_witness :
  init_plugins "/etc/falco/falco.yaml" malformed_plugins_doc []
  = Throw (error_reading' "/etc/falco/falco.yaml" "could not load plugins config: "
           +:+ "bad file").
Proof.
  apply (init_plugins_errors "/etc/falco/falco.yaml" malformed_plugins_doc []).
  vm_compute. reflexivity.
Defined.

Lemma init_plugins_keeps_order_witness :
  ∃ plugins kept,
    get_sequence_plugins load_plugins_doc "plugins" = inr plugins ∧
    [plugin_b; plugin_a] = [plugin_b] ++ kept ∧
    kept `sublist_of` plugins ∧
    (is_defined load_plugins_doc "load_plugins" = true →
     Forall (fun p => m_name p ∈ get_sequence load_plugins_doc "load_plugins") kept).
Proof.
  apply (init_plugins_keeps_order "/etc/falco/falco.yaml" load_plugins_doc [plugin_b]).
  vm_compute. reflexivity.
Defined.

(** ** [init] as a whole *)

Lemma init_cmdline_options_no_Exit {doc : Type} `{YamlConfiguration doc}
    (opts : list string) (d : doc) status :
  init_cmdline_options opts d ≠ Exit status.
Proof.
  revert d. induction opts as [|opt opts IH]; intros d; simpl; [done|].
  unfold set_cmdline_option. destruct (split opt "="); simpl; [apply IH | done].
Qed.

Lemma init_rules_files_Exit fs (files acc : list string) status :
  init_rules_files fs files acc = Exit status → status = -1.
Proof.
  revert acc. induction files as [|file files IH]; intros acc; simpl; [done|].
  destruct (fs_stat fs file) as [st_mode|] eqn:Hst; [|apply IH].
  unfold read_rules_file_directory. rewrite Hst.
  destruct (bool_decide _); simpl; [|apply IH].
  destruct (fs_readdir fs file) as [ents|]; simpl; [|by intros [= <-]].
  destruct (scan_directory fs file ents []) as [names| |] eqn:Hscan; simpl;
    [apply IH | done |].
  intros [= <-]. clear IH Hst. revert Hscan. generalize (@nil string).
  induction ents as [|d ents IH]; intros names; simpl; [done|].
  destruct (fs_stat fs (file +:+ "/" +:+ d)) as [m|]; [|intros E; congruence].
  destruct (bool_decide (Z.land m S_IFREG ≠ 0)); apply IH.
Qed.

Lemma init_rules_files_no_Throw fs (files acc : list string) what :
  init_rules_files fs files acc ≠ Throw what.
Proof.
  revert acc. induction files as [|file files IH]; intros acc; simpl; [done|].
  destruct (fs_stat fs file) as [st_mode|] eqn:Hst; [|apply IH].
  unfold read_rules_file_directory. rewrite Hst.
  destruct (bool_decide _); simpl; [|apply IH].
  destruct (fs_readdir fs file) as [ents|]; simpl; [|done].
  destruct (scan_directory fs file ents []) as [names| |] eqn:Hscan; simpl;
    [apply IH | | done].
  exfalso. clear Hst. revert Hscan. generalize (@nil string).
  induction ents as [|d ents IHe]; intros names; simpl; [done|].
  destruct (fs_stat fs (file +:+ "/" +:+ d)) as [m|]; [|done].
  destruct (bool_decide (Z.land m S_IFREG ≠ 0)); apply IHe.
Qed.

Lemma init_outputs_Ok_nonempty {doc : Type} `{YamlConfiguration doc}
    m_config_file (m_config : doc) m_outputs outs :
  init_outputs m_config_file m_config m_outputs = Ok outs → outs ≠ [].
Proof.
  unfold init_outputs.
  destruct (select_outputs m_config_file m_config m_outputs) as [l| |]; simpl;
    [|discriminate..].
  case_bool_decide as Hlen; [discriminate|]. intros [= <-] ->. by apply Hlen.
Qed.

Lemma init_outputs_no_Exit {doc : Type} `{YamlConfiguration doc}
    m_config_file (m_config : doc) m_outputs status :
  init_outputs m_config_file m_config m_outputs ≠ Exit status.
Proof.
  unfold init_outputs, select_outputs, file_output, stdout_output, syslog_output,
    program_output, http_output, grpc_output.
  repeat (case_match; simpl; try discriminate).
Qed.

Lemma add_drop_actions_no_Exit m_config_file (acts : list string)
    (actions : gset syscall_evt_drop_action) status :
  add_drop_actions m_config_file acts actions ≠ Exit status.
Proof.
  revert actions. induction acts as [|act acts IH]; intros actions; simpl; [done|].
  unfold add_drop_action.
  repeat (case_match; simpl; try discriminate); apply IH.
Qed.

Lemma init_syscall_event_drop_actions_Ok m_config_file (acts : list string)
    (actions0 actions : gset syscall_evt_drop_action) :
  init_syscall_event_drop_actions m_config_file acts actions0 = Ok actions →
  actions ≠ ∅.
Proof.
  unfold init_syscall_event_drop_actions.
  destruct (add_drop_actions m_config_file acts actions0) as [s| |]; simpl;
    [|discriminate..].
  case_bool_decide as Hempty; intros [= <-]; [|done].
  apply (non_empty_inhabited_L IGNORE), elem_of_union_l. by apply elem_of_singleton_2.
Qed.

Lemma init_syscall_event_drop_actions_no_Exit m_config_file (acts : list string)
    (actions0 : gset syscall_evt_drop_action) status :
  init_syscall_event_drop_actions m_config_file acts actions0 ≠ Exit status.
Proof.
  unfold init_syscall_event_drop_actions.
  pose proof (add_drop_actions_no_Exit m_config_file acts actions0 status).
  destruct (add_drop_actions m_config_file acts actions0); simpl; [|done..].
  by case_bool_decide.
Qed.

Lemma init_metadata_download_Ok {doc : Type} `{YamlConfiguration doc}
    m_config_file (m_config : doc) settings :
  init_metadata_download m_config_file m_config = Ok settings →
  settings.1.1 ≤ 1024 ∧ settings.2 ≠ 0.
Proof.
  unfold init_metadata_download, check_metadata_download_max_mb.
  destruct (Z.ltb_spec 1024 (get_scalar_uint32 m_config "metadata_download.max_mb" 100));
    simpl; [discriminate|].
  destruct (Z.eqb_spec (get_scalar_uint32 m_config "metadata_download.watch_freq_sec" 1) 0);
    [discriminate|].
  by intros [= <-].
Qed.

Lemma init_metadata_download_no_Exit {doc : Type} `{YamlConfiguration doc}
    m_config_file (m_config : doc) status :
  init_metadata_download m_config_file m_config ≠ Exit status.
Proof.
  unfold init_metadata_download, check_metadata_download_max_mb.
  repeat (case_match; simpl; try discriminate).
Qed.

Lemma init_plugins_no_Exit {doc : Type} `{YamlConfiguration doc}
    m_config_file (m_config : doc) m_plugins status :
  init_plugins m_config_file m_config m_plugins ≠ Exit status.
Proof. unfold init_plugins. by case_match. Qed.

Section init_properties.
Context {doc : Type} `{YamlConfiguration doc} `{YamlConfigurationDouble doc}.
Context {priority level : Type}.
Variable fs : filesystem.
Variable parse_priority : string → option priority.
Variable set_level : string → result level.
Variable hardware_concurrency : Z.
Variable conf_filename : string.
Variable cmdline_options : list string.
Variable loaded : doc.

Let run : result (@falco_configuration.t doc priority * @falco_logger level) :=
  init fs parse_priority set_level hardware_concurrency
    conf_filename cmdline_options loaded.

(** X20: what holds of every configuration that [init] returns. Its
    document is the loaded one with the overrides applied; there is at
    least one sink and at least one action on dropped events; the drop
    threshold is neither below 0 nor above 1; the maximum of consecutive
    timeouts and the watch frequency are not zero; the maximum download
    size is at most 1024; the priority is the one [parse_priority] makes of
    the [priority] setting and the logger has the level [set_level] makes
    of [log_level]; the number of gRPC threads is not zero on a machine
    that reports hardware threads; and [stat] finds every rules file. *)
Theorem init_invariants cfg logger :
  run = Ok (cfg, logger) →
  init_cmdline_options cmdline_options loaded = Ok (falco_configuration.m_config cfg) ∧
  falco_configuration.m_outputs cfg ≠ [] ∧
  falco_configuration.m_syscall_evt_drop_actions cfg ≠ ∅ ∧
  PrimFloat.ltb (falco_configuration.m_syscall_evt_drop_threshold cfg) 0%float = false ∧
  PrimFloat.ltb 1%float (falco_configuration.m_syscall_evt_drop_threshold cfg) = false ∧
  falco_configuration.m_syscall_evt_timeout_max_consecutives cfg ≠ 0 ∧
  falco_configuration.m_metadata_download_max_mb cfg ≤ 1024 ∧
  falco_configuration.m_metadata_download_watch_freq_sec cfg ≠ 0 ∧
  parse_priority (get_scalar_string (falco_configuration.m_config cfg) "priority" "debug")
  = Some (falco_configuration.m_min_priority cfg) ∧
  set_level (falco_configuration.m_log_level cfg) = Ok (logger_level logger) ∧
  (hardware_concurrency ≠ 0 → falco_configuration.m_grpc_threadiness cfg ≠ 0) ∧
  Forall (fun p => is_Some (fs_stat fs p)) (falco_configuration.m_rules_filenames cfg).
Proof.
  subst run. unfold init.
  destruct (init_cmdline_options cmdline_options loaded) as [m_config| |] eqn:Hcmd;
    simpl; [|discriminate..].
  destruct (init_rules_files fs (get_sequence m_config "rules_file") [])
    as [files| |] eqn:Hrules; simpl; [|discriminate..].
  destruct (init_outputs conf_filename m_config []) as [outs| |] eqn:Houts;
    simpl; [|discriminate..].
  destruct (set_level (get_scalar_string m_config "log_level" "info"))
    as [lvl| |] eqn:Hlevel; simpl; [|discriminate..].
  destruct (parse_priority (get_scalar_string m_config "priority" "debug"))
    as [prio|] eqn:Hprio; [|discriminate].
  destruct (init_syscall_event_drop_actions conf_filename
              (get_sequence m_config "syscall_event_drops.actions") ∅)
    as [actions| |] eqn:Hactions; simpl; [|discriminate..].
  destruct (PrimFloat.ltb _ 0%float) eqn:Hlow; simpl; [discriminate|].
  destruct (PrimFloat.ltb 1%float _) eqn:Hhigh; simpl; [discriminate|].
  destruct (Z.eqb_spec
              (get_scalar_uint32 m_config "syscall_event_timeouts.max_consecutives" 1000) 0)
    as [|Hmax]; [discriminate|].
  destruct (init_metadata_download conf_filename m_config) as [settings| |] eqn:Hmeta;
    simpl; [|discriminate..].
  destruct (init_plugins conf_filename m_config []) as [plugins| |] eqn:Hplugins;
    simpl; [|discriminate..].
  intros [= <- <-]. simpl.
  apply init_metadata_download_Ok in Hmeta as [Hmb Hwatch].
  split; [reflexivity|]. split; [by apply init_outputs_Ok_nonempty in Houts|].
  split; [by apply init_syscall_event_drop_actions_Ok in Hactions|].
  split; [exact Hlow|]. split; [exact Hhigh|]. split; [exact Hmax|].
  split; [exact Hmb|]. split; [exact Hwatch|]. split; [exact Hprio|].
  split; [exact Hlevel|]. split.
  - intros Hhw. by destruct (Z.eqb_spec (get_scalar_uint32 m_config "grpc.threadiness" 0) 0).
  - by apply (init_rules_files_existing fs (get_sequence m_config "rules_file")).
Qed.

(** X21: [init] stops at the first part that fails, and the overrides, the
    rules files and the outputs come first, in that order. A malformed
    override throws its syntax error whatever the document and the file
    system hold; with the overrides applied, a rules directory that cannot
    be scanned ends the process whatever the rest of the document holds;
    and with the rules files resolved, an error of the outputs is the error
    of [init]. *)
Theorem init_first_failure :
  (∀ pre opt post,
     cmdline_options = pre ++ opt :: post → Forall has_equals pre → ¬ has_equals opt →
     run = Throw (cmdline_option_error opt)) ∧
  (∀ m_config status,
     init_cmdline_options cmdline_options loaded = Ok m_config →
     init_rules_files fs (get_sequence m_config "rules_file") [] = Exit status →
     run = Exit status) ∧
  (∀ m_config files what,
     init_cmdline_options cmdline_options loaded = Ok m_config →
     init_rules_files fs (get_sequence m_config "rules_file") [] = Ok files →
     init_outputs conf_filename m_config [] = Throw what →
     run = Throw what).
Proof.
  subst run. unfold init. split; [|split].
  - intros pre opt post -> Hpre Hopt.
    by rewrite (init_cmdline_options_Throw pre post opt loaded Hpre Hopt).
  - intros m_config status Hcmd Hrules. rewrite Hcmd. simpl. by rewrite Hrules.
  - intros m_config files what Hcmd Hrules Houts. rewrite Hcmd. simpl.
    rewrite Hrules. simpl. by rewrite Houts.
Qed.

(** X22: [init] ends the process only from the resolution of the rules
    files, and then with status -1; the resolution of the rules files in
    turn never throws, whatever the entries, the list it starts from and
    the file system, and it never exits with another status than -1. The
    first part is so with any logger that does not end the process
    itself. *)
Theorem init_exits_only_from_rules_files :
  (∀ (rules_files m_rules_filenames : list string) what,
     init_rules_files fs rules_files m_rules_filenames ≠ Throw what) ∧
  (∀ (rules_files m_rules_filenames : list string) status,
     init_rules_files fs rules_files m_rules_filenames = Exit status → status = -1) ∧
  ((∀ log_level s, set_level log_level ≠ Exit s) →
   ∀ status,
     run = Exit status →
     status = -1 ∧
     ∃ m_config,
       init_cmdline_options cmdline_options loaded = Ok m_config ∧
       init_rules_files fs (get_sequence m_config "rules_file") [] = Exit status).
Proof.
  split; [intros files acc what; apply init_rules_files_no_Throw|].
  split; [intros files acc status; apply init_rules_files_Exit|].
  intros Hlogger status. subst run. unfold init.
  pose proof (init_cmdline_options_no_Exit cmdline_options loaded) as Hno.
  destruct (init_cmdline_options cmdline_options loaded) as [m_config| |];
    simpl; [|discriminate|exfalso; by eapply Hno]; clear Hno.
  destruct (init_rules_files fs (get_sequence m_config "rules_file") [])
    as [files| |] eqn:Hrules; simpl.
  - pose proof (init_outputs_no_Exit conf_filename m_config []) as Hno.
    destruct (init_outputs conf_filename m_config []) as [outs| |];
      simpl; [|discriminate|exfalso; by eapply Hno]; clear Hno.
    pose proof (Hlogger (get_scalar_string m_config "log_level" "info")) as Hno.
    destruct (set_level (get_scalar_string m_config "log_level" "info"))
      as [lvl| |]; simpl; [|discriminate|exfalso; by eapply Hno]; clear Hno.
    destruct (parse_priority _) as [prio|]; [|discriminate].
    pose proof (init_syscall_event_drop_actions_no_Exit conf_filename
                  (get_sequence m_config "syscall_event_drops.actions") ∅)
      as Hno.
    destruct (init_syscall_event_drop_actions conf_filename
                (get_sequence m_config "syscall_event_drops.actions") ∅)
      as [actions| |]; simpl; [|discriminate|exfalso; by eapply Hno]; clear Hno.
    destruct (_ || _); [discriminate|].
    destruct (_ =? 0); [discriminate|].
    pose proof (init_metadata_download_no_Exit conf_filename m_config) as Hno.
    destruct (init_metadata_download conf_filename m_config) as [settings| |];
      simpl; [|discriminate|exfalso; by eapply Hno]; clear Hno.
    pose proof (init_plugins_no_Exit conf_filename m_config []) as Hno.
    destruct (init_plugins conf_filename m_config []) as [plugins| |];
      simpl; [discriminate|discriminate|exfalso; by eapply Hno]; clear Hno.
  - discriminate.
  - intros [= <-]. split; [by apply init_rules_files_Exit in Hrules|].
    exists m_config. split; [reflexivity | exact Hrules].
Qed.

Lemma init_Ok_document cfg logger :
  run = Ok (cfg, logger) →
  init_cmdline_options cmdline_options loaded = Ok (falco_configuration.m_config cfg) ∧
  falco_configuration.m_log_level cfg
  = get_scalar_string (falco_configuration.m_config cfg) "log_level" "info".
Proof.
  subst run. unfold init.
  repeat init_step. by intros [= <- <-].
Qed.

(** X23: the settings are read from the document after the overrides. On
    a document that reads back what was written at a path, the value of
    the last override is what the returned configuration holds at the path
    of that override, and when the path is [log_level] it is the log level
    of the configuration. *)
Theorem init_reads_overrides pre key value cfg logger :
  (∀ (d : doc) k v dflt, get_scalar_string (set_scalar d k v) k dflt = v) →
  cmdline_options = pre ++ [key +:+ String "=" value] →
  Forall has_equals pre → "="%char ∉ chars key →
  run = Ok (cfg, logger) →
  (∀ dflt, get_scalar_string (falco_configuration.m_config cfg) key dflt = value) ∧
  falco_configuration.m_log_level cfg
  = get_scalar_string (falco_configuration.m_config cfg) "log_level" "info" ∧
  (key = "log_level" → falco_configuration.m_log_level cfg = value).
Proof.
  intros Hlaw Hopts Hpre Hkey Hrun.
  apply init_Ok_document in Hrun as [Hcmd Hlevel].
  destruct (init_cmdline_options_last pre key value loaded Hpre Hkey) as (d' & _ & Hlast).
  rewrite Hopts, Hlast in Hcmd. injection Hcmd as Hcfg.
  assert (Hread : ∀ dflt, get_scalar_string (falco_configuration.m_config cfg) key dflt
                          = value).
  { intros dflt. rewrite <- Hcfg. apply Hlaw. }
  split; [exact Hread|]. split; [exact Hlevel|].
  intros ->. rewrite Hlevel. apply Hread.
Qed.
End init_properties.

Lemma init_invariants_witness :
  ∃ cfg logger,
    example_init ["syscall_event_drops.threshold=0.5"; "log_level=debug"] init_doc
    = Ok (cfg, logger) ∧
    falco_configuration.m_outputs cfg ≠ [] ∧
    falco_configuration.m_syscall_evt_drop_actions cfg ≠ ∅ ∧
    falco_configuration.m_grpc_threadiness cfg ≠ 0.
Proof.
  assert (∃ r, example_init ["syscall_event_drops.threshold=0.5"; "log_level=debug"] init_doc
               = Ok r) as [[cfg logger] Hrun].
  { eexists. vm_compute. reflexivity. }
  exists cfg, logger. split; [exact Hrun|].
  destruct (init_invariants example_fs example_parse_priority example_set_level 4
              "/etc/falco/falco.yaml" _ init_doc cfg logger Hrun)
    as (_ & Houts & Hactions & _ & _ & _ & _ & _ & _ & _ & Hthreads & _).
  split; [exact Houts|]. split; [exact Hactions|]. apply Hthreads. discriminate.
Defined.

Lemma init_first_failure_witness :
  example_init (["json_output=true"] ++ "log_level" :: ["priority=none"]) init_doc
  = Throw (cmdline_option_error "log_level").
Proof.
  destruct (init_first_failure example_fs example_parse_priority example_set_level 4
              "/etc/falco/falco.yaml"
              (["json_output=true"] ++ "log_level" :: ["priority=none"]) init_doc)
    as (Hfirst & _).
  apply (Hfirst ["json_output=true"] "log_level" ["priority=none"]).
  - reflexivity.
  - apply Forall_cons_2; [|apply Forall_nil_2]. unfold has_equals. chars_solver.
  - unfold has_equals. chars_solver.
Defined.

Lemma init_exits_only_from_rules_files_witness :
  (∀ what, init_rules_files broken_fs ["/etc/falco/rules.d"] [] ≠ Throw what) ∧
  (-1) = -1 ∧
  ∃ m_config : gmap string yaml_node,
    init_cmdline_options ["log_level=debug"] init_doc = Ok m_config ∧
    init_rules_files broken_fs (get_sequence m_config "rules_file") [] = Exit (-1).
Proof.
  destruct (init_exits_only_from_rules_files broken_fs example_parse_priority
              example_set_level 4 "/etc/falco/falco.yaml" ["log_level=debug"] init_doc)
    as (Hnothrow & _ & Hexit).
  split; [apply Hnothrow|]. apply Hexit.
  - intros log_level s. discriminate.
  - vm_compute. reflexivity.
Defined.

Lemma init_reads_overrides_witness :
  ∃ cfg logger,
    example_init (["json_output=true"] ++ ["log_level" +:+ String "=" "debug"]) init_doc
    = Ok (cfg, logger) ∧
    falco_configuration.m_log_level cfg = "debug".
Proof.
  assert (∃ r, example_init (["json_output=true"] ++ ["log_level" +:+ String "=" "debug"])
                 init_doc = Ok r) as [[cfg logger] Hrun].
  { eexists. vm_compute. reflexivity. }
  exists cfg, logger. split; [exact Hrun|].
  assert (Hpre : Forall has_equals ["json_output=true"]).
  { apply Forall_cons_2; [|apply Forall_nil_2]. unfold has_equals. chars_solver. }
  assert (Hkey : "="%char ∉ chars "log_level") by chars_solver.
  destruct (init_reads_overrides example_fs example_parse_priority example_set_level 4
              "/etc/falco/falco.yaml"
              (["json_output=true"] ++ ["log_level" +:+ String "=" "debug"]) init_doc
              ["json_output=true"] "log_level" "debug" cfg logger
              store_get_set eq_refl Hpre Hkey Hrun) as (_ & _ & Hlevel).
  exact (Hlevel eq_refl).
Defined.
